(** * mt10x: a shallow embedding of the MT10x message parser

    The Python module [mt10x.py] decomposes a SWIFT MT10x message with three
    regular expressions (message envelope, user header, text block) and two
    fixed-offset slicers (basic and application header).  This file embeds

    - Python text as lists of characters, with [str.strip] and slicing;
    - the fragment of Python's [re] the module uses, as a backtracking
      matcher with named groups, greedy and lazy repetition, lookahead and
      the [$] anchor ([re.DOTALL] only, no [re.MULTILINE]);
    - the five classes with their constructors and [_populate_by_parsing];
    - the [datetime.date] constructor as far as the module calls it.

    Characters are code points below 256.  On that range [\s] and
    [str.strip] agree on the same eleven white-space characters and [\d] is
    the ten ASCII digits. *)

From Stdlib Require Import List Ascii String Bool Arith NArith ZArith Lia.
Import ListNotations.

Set Implicit Arguments.
Open Scope list_scope.

(** ** Text *)

Definition str := list ascii.

Definition L (s : string) : str := list_ascii_of_string s.
Arguments L s%_string.

Definition code (a : ascii) : N := N_of_ascii a.

Definition between (lo hi : N) (a : ascii) : bool :=
  (lo <=? code a)%N && (code a <=? hi)%N.

Definition is_char (x : ascii) (a : ascii) : bool := Ascii.eqb x a.

Definition one_of (w : string) (a : ascii) : bool :=
  existsb (Ascii.eqb a) (L w).
Arguments one_of w%_string a.

Definition upper : ascii -> bool := between 65 90.
Definition lower : ascii -> bool := between 97 122.
Definition digit : ascii -> bool := between 48 57.

(** [Py_UNICODE_ISSPACE] below 256: TAB..CR, FS..US, SPACE, NEL, NBSP.  It
    decides both [\s] and [str.strip()]. *)
Definition space (a : ascii) : bool :=
  between 9 13 a || between 28 32 a
  || (code a =? 133)%N || (code a =? 160)%N.

Fixpoint dropwhile (p : ascii -> bool) (s : str) : str :=
  match s with
  | [] => []
  | a :: s' => if p a then dropwhile p s' else s
  end.

Definition lstrip (s : str) : str := dropwhile space s.
Definition rstrip (s : str) : str := rev (dropwhile space (rev s)).
Definition strip (s : str) : str := rstrip (lstrip s).

(** [s[a:b]] for constant bounds [0 <= a <= b]; never out of range. *)
Definition slice (a b : nat) (s : str) : str := firstn (b - a) (skipn a s).

(** Python truthiness of a [str]. *)
Definition truthy (s : str) : bool :=
  match s with [] => false | _ :: _ => true end.

(** ** The [re] fragment *)

(** A match object: the named groups that took part, latest binding first. *)
Definition caps := list (string * str).

Fixpoint group (c : caps) (n : string) : option str :=
  match c with
  | [] => None
  | (n', v) :: c' => if String.eqb n n' then Some v else group c' n
  end.

Arguments group c n%_string.

Definition bind (n : string) (v : str) (c : caps) : caps := (n, v) :: c.

Inductive greed := Greedy | Lazy.

(** Pattern syntax.  Unnamed parentheses only group (the module never reads
    a numbered group), so they leave no trace here; the leading [^] is
    always satisfied because [match] starts at offset 0. *)
Inductive regex :=
| Eps
| Lit (w : str)
| Chr (p : ascii -> bool)
| Seq (r1 r2 : regex)
| Alt (r1 r2 : regex)
| Rep (g : greed) (lo : nat) (hi : option nat) (r : regex)
| Group (n : string) (r : regex)
| Look (r : regex)
| Eol.
Arguments Group n%_string r.

Definition K := str -> caps -> option caps.

Definition or_else (a : option caps) (b : unit -> option caps) : option caps :=
  match a with
  | Some x => Some x
  | None => b tt
  end.

Fixpoint strip_prefix (w s : str) : option str :=
  match w, s with
  | [], _ => Some s
  | x :: w', a :: s' => if Ascii.eqb x a then strip_prefix w' s' else None
  | _ :: _, [] => None
  end.

Definition dec_hi (hi : option nat) : option nat := option_map pred hi.

Definition hi_open (hi : option nat) : bool :=
  match hi with Some 0 => false | _ => true end.

(** One repetition operator: [lo] iterations still owed, [hi] still allowed.
    A greedy operator tries another iteration before leaving, a lazy one
    leaves first.  An iteration has to consume input, so [fuel] bounded by
    the remaining length never runs out. *)
Fixpoint rep_loop (step : K -> K) (g : greed) (k : K) (fuel lo : nat)
    (hi : option nat) (s : str) (c : caps) {struct fuel} : option caps :=
  match fuel with
  | 0 => None
  | S fuel' =>
      let more := fun _ : unit =>
        if hi_open hi then
          step (fun s' c' =>
                  if List.length s' <? List.length s
                  then rep_loop step g k fuel' (pred lo) (dec_hi hi) s' c'
                  else None) s c
        else None in
      let stop := fun _ : unit =>
        match lo with 0 => k s c | S _ => None end in
      match g with
      | Greedy => or_else (more tt) stop
      | Lazy => or_else (stop tt) more
      end
  end.

Definition at_end (s : str) : bool :=
  match s with
  | [] => true
  | [a] => Ascii.eqb a "010"%char
  | _ => false
  end.

(** The backtracking matcher in continuation-passing style: [k] is the rest
    of the pattern; [None] makes the caller try its next alternative. *)
Fixpoint m (r : regex) (k : K) (s : str) (c : caps) {struct r} : option caps :=
  match r with
  | Eps => k s c
  | Lit w =>
      match strip_prefix w s with
      | Some s' => k s' c
      | None => None
      end
  | Chr p =>
      match s with
      | a :: s' => if p a then k s' c else None
      | [] => None
      end
  | Seq r1 r2 => m r1 (m r2 k) s c
  | Alt r1 r2 => or_else (m r1 k s c) (fun _ => m r2 k s c)
  | Rep g lo hi r1 => rep_loop (m r1) g k (S (List.length s)) lo hi s c
  | Group n r1 =>
      m r1 (fun s' c' => k s' (bind n (firstn (List.length s - List.length s') s) c')) s c
  | Look r1 =>
      match m r1 (fun _ c' => Some c') s c with
      | Some c' => k s c'
      | None => None
      end
  | Eol => if at_end s then k s c else None
  end.

(** [pattern.match(s)]. *)
Definition re_match (r : regex) (s : str) : option caps :=
  m r (fun _ c => Some c) s [].

(** Pattern combinators, named after the syntax they stand for. *)
Definition opt (r : regex) : regex := Rep Greedy 0 (Some 1) r.      (* r?    *)
Definition star (r : regex) : regex := Rep Greedy 0 None r.         (* r*    *)
Definition plus (r : regex) : regex := Rep Greedy 1 None r.         (* r+    *)
Definition star_lazy (r : regex) : regex := Rep Lazy 0 None r.      (* r*?   *)
Definition plus_lazy (r : regex) : regex := Rep Lazy 1 None r.      (* r+?   *)
Definition times (n : nat) (r : regex) : regex := Rep Greedy n (Some n) r.
Definition upto (lo hi : nat) (r : regex) : regex := Rep Greedy lo (Some hi) r.

Fixpoint seqs (rs : list regex) : regex :=
  match rs with
  | [] => Eps
  | r :: rs' => Seq r (seqs rs')
  end.

Definition any : ascii -> bool := fun _ => true.                    (* . with DOTALL *)
Definition nott (p : ascii -> bool) : ascii -> bool := fun a => negb (p a).
Definition either (p q : ascii -> bool) : ascii -> bool := fun a => p a || q a.
Definition alnum : ascii -> bool := either lower (either upper digit).

(** ** [datetime.date] and [int], as far as the module calls them *)

(** [int(s)] on the only strings it is given here, runs of ASCII digits;
    anything else is the [ValueError] outcome [None]. *)
Definition digit_val (a : ascii) : Z := Z.of_N (code a) - 48.

Definition py_int (s : str) : option Z :=
  if truthy s && forallb digit s
  then Some (fold_left (fun acc a => 10 * acc + digit_val a)%Z s 0%Z)
  else None.

Module datetime.

Record date := Date { year : Z; month : Z; day : Z }.

Definition _is_leap (y : Z) : bool :=
  ((y mod 4 =? 0) && (negb (y mod 100 =? 0) || (y mod 400 =? 0)))%Z.

Definition _DAYS_IN_MONTH : list Z :=
  [-1; 31; 28; 31; 30; 31; 30; 31; 31; 30; 31; 30; 31]%Z.

Definition _days_in_month (y mo : Z) : Z :=
  if ((mo =? 2)%Z && _is_leap y)%bool then 29%Z
  else nth (Z.to_nat mo) _DAYS_IN_MONTH 0%Z.

(** [date(y, mo, d)]: [None] is the [ValueError] of [_check_date_fields]. *)
Definition date_new (y mo d : Z) : option date :=
  if negb ((1 <=? y) && (y <=? 9999))%Z then None
  else if negb ((1 <=? mo) && (mo <=? 12))%Z then None
  else if negb ((1 <=? d) && (d <=? _days_in_month y mo))%Z then None
  else Some (Date y mo d).

End datetime.

(** ** BasicHeader *)

Module BasicHeader.

Record t := mk {
  raw : str;
  _application_id : option str;
  _service_id : option str;
  _logical_terminal_address : option str;
  _session_number : option str;
  _sequence_number : option str;
  _boolean : bool
}.

Definition _populate_by_parsing (self : t) : t :=
  if negb (truthy (raw self)) then self
  else
    {| raw := raw self;
       _boolean := truthy (raw self);
       _application_id := Some (slice 0 1 (raw self));
       _service_id := Some (slice 1 3 (raw self));
       _logical_terminal_address := Some (slice 3 15 (raw self));
       _session_number := Some (slice 15 19 (raw self));
       _sequence_number := Some (slice 19 25 (raw self)) |}.

Definition __init__ (raw : str) : t :=
  _populate_by_parsing (mk raw None None None None None false).

(** [__str__], [__repr__], [__bool__] and the read-only properties. *)
Definition __str__ (self : t) : str := raw self.
Definition __repr__ (self : t) : str := __str__ self.
Definition __bool__ (self : t) : bool := _boolean self.
Definition application_id := _application_id.
Definition service_id := _service_id.
Definition logical_terminal_address := _logical_terminal_address.
Definition session_number := _session_number.
Definition sequence_number := _sequence_number.

End BasicHeader.

(** ** ApplicationHeader *)

Module ApplicationHeader.

(** [MT10x] hands over [m.group("application_header")] as it is, so [raw]
    may be Python's [None]. *)
Record t := mk {
  raw : option str;
  _input_output : option str;
  _swift_message_type : option str;
  _destination_address : option str;
  _priority : option str;
  _delivery_monitoring : option str;
  _obsolescence_period : option str;
  _boolean : bool
}.

Definition _populate_by_parsing (self : t) : t :=
  match raw self with
  | None => self
  | Some r =>
      if negb (truthy r) then self
      else
        {| raw := raw self;
           _boolean := truthy r;
           _input_output := Some (slice 0 1 r);
           _swift_message_type := Some (slice 1 4 r);
           _destination_address := Some (slice 4 16 r);
           _priority := Some (slice 16 17 r);
           _delivery_monitoring := Some (slice 17 18 r);
           _obsolescence_period := Some (slice 18 21 r) |}
  end.

Definition __init__ (raw : option str) : t :=
  _populate_by_parsing (mk raw None None None None None None false).

(** [__str__] hands back [raw]; when that is [None], [str(...)] raises
    [TypeError], which is the [None] here.  [__repr__] calls [str(self)]. *)
Definition __str__ (self : t) : option str := raw self.
Definition __repr__ (self : t) : option str := __str__ self.
Definition __bool__ (self : t) : bool := _boolean self.
Definition input_output := _input_output.
Definition swift_message_type := _swift_message_type.
Definition destination_address := _destination_address.
Definition priority := _priority.
Definition delivery_monitoring := _delivery_monitoring.
Definition obsolescence_period := _obsolescence_period.

End ApplicationHeader.

(** ** UserHeader *)

(** The UETR shape shared by both patterns:
    [[a-zA-Z0-9]{8}-[a-zA-Z0-9]{4}-4[a-zA-Z0-9]{3}-[89ab][a-zA-Z0-9]{3}-[a-zA-Z0-9]{12}]. *)
Definition UETR : regex :=
  seqs [ times 8 (Chr alnum); Lit (L "-");
         times 4 (Chr alnum); Lit (L "-4");
         times 3 (Chr alnum); Lit (L "-");
         Chr (one_of "89ab"); times 3 (Chr alnum); Lit (L "-");
         times 12 (Chr alnum) ].

Module UserHeader.

Definition REGEX : regex :=
  seqs [
    opt (seqs [Lit (L "{113:"); Group "bpc" (times 4 (Chr upper)); Lit (L "}")]);
    opt (seqs [Lit (L "{108:");
               Group "mur" (upto 0 16 (Chr (either upper digit)));
               Lit (L "}")]);
    opt (seqs [Lit (L "{111:"); Group "sti" (times 3 (Chr digit)); Lit (L "}")]);
    opt (seqs [Lit (L "{121:"); Group "uetr" UETR; Lit (L "}")]);
    Eol ].

Record t := mk {
  raw : str;
  bank_priority_code : option str;
  message_user_reference : option str;
  service_type_identifier : option str;
  unique_end_to_end_transaction_reference : option str;
  _boolean : bool
}.

Definition _populate_by_parsing (self : t) : t :=
  if negb (truthy (raw self)) then self
  else
    match re_match REGEX (raw self) with
    | None =>
        {| raw := raw self;
           bank_priority_code := bank_priority_code self;
           message_user_reference := message_user_reference self;
           service_type_identifier := service_type_identifier self;
           unique_end_to_end_transaction_reference :=
             unique_end_to_end_transaction_reference self;
           _boolean := false |}
    | Some mo =>
        {| raw := raw self;
           _boolean := true;
           bank_priority_code := group mo "bpc";
           message_user_reference := group mo "mur";
           service_type_identifier := group mo "sti";
           unique_end_to_end_transaction_reference := group mo "uetr" |}
    end.

Definition __init__ (raw : str) : t :=
  _populate_by_parsing (mk raw None None None None false).

Definition __str__ (self : t) : str := raw self.
Definition __repr__ (self : t) : str := __str__ self.
Definition __bool__ (self : t) : bool := _boolean self.
Definition bpc := bank_priority_code.
Definition mur := message_user_reference.
Definition sti := service_type_identifier.
Definition uetr := unique_end_to_end_transaction_reference.

End UserHeader.

(** ** Text *)

(** The named groups of a pattern, in pattern order ([groupindex]). *)
Fixpoint names (r : regex) : list string :=
  match r with
  | Eps | Lit _ | Chr _ | Eol => []
  | Seq r1 r2 | Alt r1 r2 => names r1 ++ names r2
  | Rep _ _ _ r1 | Look r1 => names r1
  | Group n r1 => n :: names r1
  end.

(** [m.groupdict()]: every named group with its value or [None]. *)
Definition groupdict (r : regex) (mo : caps) : list (string * option str) :=
  map (fun n => (n, group mo n)) (names r).

Module Text.

Definition not_colon : ascii -> bool := nott (is_char ":").
Definition not_space_colon : ascii -> bool := nott (either space (is_char ":")).
Definition digit_comma : ascii -> bool := either digit (is_char ",").

(** One catalog entry: the tag, then what follows it. *)
Definition item (tag : regex) (body : list regex) : regex := Seq tag (seqs body).

Definition tag (w : string) : regex := Lit (L w).
Arguments tag w%_string.

(** A tag with a choice of option letters, such as [:50[AFK]:]. *)
Definition tag_opt (w letters : string) : regex :=
  seqs [Lit (L w); Chr (one_of letters); Lit (L ":")].
Arguments tag_opt (w letters)%_string.

(** [(?P<n>.*?)\s*(?=(:\d\d)?)], the body of every free-text item. *)
Definition free_text (n : string) : list regex :=
  [ Group n (star_lazy (Chr any)); star (Chr space);
    Look (opt (seqs [Lit (L ":"); Chr digit; Chr digit])) ].
Arguments free_text n%_string.

Definition ITEMS : list regex := [
  opt (item (tag ":20:")
         [Group "senders_reference" (plus (Chr not_space_colon));
          star (Chr space)]);
  star_lazy (item (tag ":13C:") [
    Lit (L "/");
    Group "time_indication_class"
      (Alt (Lit (L "CLSTIME")) (Alt (Lit (L "RNCTIME")) (Lit (L "SNDTIME"))));
    Lit (L "/");
    Group "time_indication_time" (times 4 (Chr digit));
    Group "time_indication_sign" (Chr (one_of "+-"));
    Group "time_indication_offset" (times 4 (Chr digit));
    star (Chr not_colon)]);
  opt (item (tag ":23B:")
         [Group "bank_operation_code" (plus (Chr not_space_colon));
          star (Chr space)]);
  opt (item (tag ":23E:") [Group "instruction_code" (star (Chr not_colon))]);
  opt (item (tag ":26T:")
         [Group "transaction_type_code" (star (Chr not_colon))]);
  opt (item (tag ":32A:")
         [Group "date_year" (Seq (Chr digit) (Chr digit));
          Group "date_month" (Seq (Chr digit) (Chr digit));
          Group "date_day" (Seq (Chr digit) (Chr digit));
          Group "interbank_settled_currency" (times 3 (Chr upper));
          Group "interbank_settled_amount" (plus (Chr digit_comma));
          star (Chr space)]);
  opt (item (tag ":33B:")
         [Group "original_ordered_currency" (times 3 (Chr upper));
          Group "original_ordered_amount" (plus (Chr digit_comma));
          star (Chr space)]);
  opt (item (tag ":36:") [Group "exchange_rate" (star (Chr not_colon))]);
  opt (item (tag_opt ":50" "AFK") (free_text "ordering_customer"));
  opt (item (tag ":51A:") [Group "sending_institution" (star (Chr not_colon))]);
  opt (item (tag_opt ":52" "AD") (free_text "ordering_institution"));
  opt (item (tag_opt ":53" "ABD")
         [Group "sender_correspondent" (star (Chr not_space_colon));
          star (Chr space)]);
  opt (item (tag_opt ":54" "ABD") (free_text "receiver_correspondent"));
  opt (item (tag_opt ":56" "ACD") (free_text "intermediary"));
  opt (item (tag_opt ":57" "ABCD") (free_text "account_with_institution"));
  opt (item (seqs [Lit (L ":59"); opt (Chr (is_char "A")); Lit (L ":")])
         (free_text "beneficiary"));
  opt (item (tag ":70:") (free_text "remittance_information"));
  opt (item (tag ":71A:") (free_text "details_of_charges"));
  star (item (tag ":71F:") [Group "sender_charges" (star (Chr not_colon))]);
  opt (item (tag ":71G:") [Group "receiver_charges" (star (Chr not_colon))]);
  opt (item (tag ":72:") (free_text "sender_to_receiver_information"));
  opt (item (tag ":77B:") (free_text "regulatory_reporting"));
  Eol ].

Definition REGEX : regex := seqs ITEMS.

(** The string attributes [__init__] creates, all [None] at first.  The
    instance is its attribute dictionary (newest binding first) next to the
    three attributes of another type. *)
Definition ATTRS : list string := [
  "senders_reference"; "bank_operation_code"; "instruction_code";
  "transaction_type_code"; "interbank_settled_currency";
  "interbank_settled_amount"; "original_ordered_currency";
  "original_ordered_amount"; "exchange_rate"; "ordering_customer";
  "sending_institution"; "ordering_institution"; "sender_correspondent";
  "receiver_correspondent"; "intermediary"; "account_with_institution";
  "beneficiary"; "remittance_information"; "details_of_charges";
  "sender_charges"; "receiver_charges"; "sender_to_receiver_information";
  "regulatory_reporting" ]%string.

Record t := mk {
  raw : str;
  dict : list (string * option str);
  date : option datetime.date;
  _boolean : bool
}.

(** [hasattr], [getattr], [setattr] on the string attributes.  No group name
    of [REGEX] is [raw], [date], [_boolean] or a class attribute, so the
    dictionary is all that [hasattr(self, k)] can find for such a [k]. *)
Definition hasattr (self : t) (k : string) : bool :=
  existsb (fun e => String.eqb k (fst e)) (dict self).

Definition getattr (self : t) (k : string) : option str :=
  match find (fun e => String.eqb k (fst e)) (dict self) with
  | Some (_, v) => v
  | None => None
  end.
Arguments getattr self k%_string.

Definition setattr (self : t) (k : string) (v : str) : t :=
  {| raw := raw self; dict := (k, Some v) :: dict self;
     date := date self; _boolean := _boolean self |}.

(** One turn of the loop over [m.groupdict().items()]. *)
Definition keep (self : t) (kv : string * option str) : t :=
  match snd kv with
  | None => self
  | Some v =>
      if String.prefix "date_" (fst kv) then self
      else if negb (hasattr self (fst kv)) then self
      else setattr self (fst kv) v
  end.

(** The [try] block: [None] stands for the swallowed [ValueError] (a date
    that does not exist) or [TypeError] (a group that is [None]). *)
Definition derive_date (mo : caps) : option datetime.date :=
  match group mo "date_year", group mo "date_month", group mo "date_day" with
  | Some y, Some mth, Some d =>
      match py_int y, py_int mth, py_int d with
      | Some y', Some mth', Some d' => datetime.date_new (2000 + y') mth' d'
      | _, _, _ => None
      end
  | _, _, _ => None
  end.

Definition _populate_by_parsing (self : t) : t :=
  if negb (truthy (raw self)) then self
  else
    match re_match REGEX (raw self) with
    | None =>
        {| raw := raw self; dict := dict self; date := date self;
           _boolean := false |}
    | Some mo =>
        let self1 :=
          fold_left keep (groupdict REGEX mo)
            {| raw := raw self; dict := dict self; date := date self;
               _boolean := true |} in
        {| raw := raw self1; dict := dict self1;
           date := match derive_date mo with
                   | Some d => Some d
                   | None => date self1
                   end;
           _boolean := _boolean self1 |}
    end.

Definition __init__ (raw : str) : t :=
  _populate_by_parsing (mk raw (map (fun k => (k, None)) ATTRS) None false).

Definition __str__ (self : t) : str := raw self.
Definition __repr__ (self : t) : str := __str__ self.
Definition __bool__ (self : t) : bool := _boolean self.

Definition senders_reference self := getattr self "senders_reference".
Definition bank_operation_code self := getattr self "bank_operation_code".
Definition transaction_type_code self := getattr self "transaction_type_code".
Definition interbank_settled_currency self :=
  getattr self "interbank_settled_currency".
Definition interbank_settled_amount self :=
  getattr self "interbank_settled_amount".
Definition original_ordered_currency self :=
  getattr self "original_ordered_currency".
Definition original_ordered_amount self :=
  getattr self "original_ordered_amount".
Definition exchange_rate self := getattr self "exchange_rate".
Definition ordering_customer self := getattr self "ordering_customer".
Definition sending_institution self := getattr self "sending_institution".
Definition ordering_institution self := getattr self "ordering_institution".
Definition sender_correspondent self := getattr self "sender_correspondent".
Definition receiver_correspondent self :=
  getattr self "receiver_correspondent".
Definition intermediary self := getattr self "intermediary".
Definition account_with_institution self :=
  getattr self "account_with_institution".
Definition beneficiary self := getattr self "beneficiary".
Definition remittance_information self :=
  getattr self "remittance_information".
Definition details_of_charges self := getattr self "details_of_charges".
Definition sender_charges self := getattr self "sender_charges".
Definition receiver_charges self := getattr self "receiver_charges".
Definition sender_to_receiver_information self :=
  getattr self "sender_to_receiver_information".
Definition regulatory_reporting self := getattr self "regulatory_reporting".

End Text.

(** ** MT10x *)

Module MT10x.

Definition USER_HEADER : regex :=
  seqs [
    opt (seqs [Lit (L "{113:"); times 4 (Chr upper); Lit (L "}")]);
    opt (seqs [Lit (L "{108:");
               upto 0 16 (Chr (either upper (either (is_char " ") digit)));
               Lit (L "}")]);
    opt (seqs [Lit (L "{111:"); times 3 (Chr digit); Lit (L "}")]);
    opt (seqs [Lit (L "{121:"); UETR; Lit (L "}")]) ].

Definition MESSAGE_REGEX : regex :=
  seqs [
    opt (seqs [Lit (L "{1:");
               Group "basic_header" (plus (Chr (nott (is_char "}"))));
               Lit (L "}")]);
    opt (seqs [Lit (L "{2:");
               Group "application_header"
                 (Seq (Alt (Lit (L "I")) (Lit (L "O")))
                      (plus (Chr (nott (is_char "}")))));
               Lit (L "}")]);
    opt (seqs [Lit (L "{3:"); Group "user_header" USER_HEADER; Lit (L "}")]);
    opt (seqs [Lit (L "{4:"); star (Chr space);
               Group "text" (plus_lazy (Chr any));
               star (Chr space); Lit (L "-}")]);
    opt (seqs [Lit (L "{5:"); Group "trailer" (plus (Chr any)); Lit (L "}")]);
    Eol ].

Record t := mk {
  raw : str;
  basic_header : option BasicHeader.t;
  application_header : option ApplicationHeader.t;
  user_header : option UserHeader.t;
  text : option Text.t;
  trailer : option str;
  _boolean : bool
}.

(** [x or ""] for an optional group value. *)
Definition or_empty (x : option str) : str :=
  match x with
  | Some v => if truthy v then v else []
  | None => []
  end.

Definition _populate_by_parsing (self : t) : t :=
  if negb (truthy (raw self)) then self
  else
    match re_match MESSAGE_REGEX (raw self) with
    | None =>
        {| raw := raw self; basic_header := basic_header self;
           application_header := application_header self;
           user_header := user_header self; text := text self;
           trailer := trailer self; _boolean := false |}
    | Some mo =>
        {| raw := raw self;
           _boolean := true;
           basic_header :=
             Some (BasicHeader.__init__ (or_empty (group mo "basic_header")));
           application_header :=
             Some (ApplicationHeader.__init__ (group mo "application_header"));
           trailer := group mo "trailer";
           user_header :=
             Some (UserHeader.__init__ (or_empty (group mo "user_header")));
           text := Some (Text.__init__ (or_empty (group mo "text"))) |}
    end.

(** [MT10x(message)]; [None] is Python's [None]. *)
Definition __init__ (message : option str) : t :=
  let message := match message with Some s => s | None => [] end in
  _populate_by_parsing (mk (strip message) None None None None None false).

(** [__str__] and [__bool__]. *)
Definition __str__ (self : t) : str := raw self.
Definition __bool__ (self : t) : bool := _boolean self.
Definition __repr__ (self : t) : str := __str__ self.

End MT10x.

(** * Specification vocabulary *)

(** ** What a pattern can match

    [matches r s c s' c']: starting on the text [s] with bindings [c], the
    pattern [r] can consume a prefix of [s], leave [s'] and the bindings
    [c'].  The relation lists every way to match; the matcher picks the
    first one, in Python's priority order, that lets the rest succeed. *)
Inductive matches : regex -> str -> caps -> str -> caps -> Prop :=
| M_eps s c : matches Eps s c s c
| M_lit w s c : matches (Lit w) (w ++ s) c s c
| M_chr p a s c : p a = true -> matches (Chr p) (a :: s) c s c
| M_seq r1 r2 s c s1 c1 s2 c2 :
    matches r1 s c s1 c1 -> matches r2 s1 c1 s2 c2 ->
    matches (Seq r1 r2) s c s2 c2
| M_alt_l r1 r2 s c s' c' :
    matches r1 s c s' c' -> matches (Alt r1 r2) s c s' c'
| M_alt_r r1 r2 s c s' c' :
    matches r2 s c s' c' -> matches (Alt r1 r2) s c s' c'
| M_rep_stop g hi r s c : matches (Rep g 0 hi r) s c s c
| M_rep_more g lo hi r s c s1 c1 s2 c2 :
    hi_open hi = true ->
    matches r s c s1 c1 ->
    List.length s1 < List.length s ->
    matches (Rep g (pred lo) (dec_hi hi) r) s1 c1 s2 c2 ->
    matches (Rep g lo hi r) s c s2 c2
| M_group n r s c s' c' :
    matches r s c s' c' ->
    matches (Group n r) s c s'
      (bind n (firstn (List.length s - List.length s') s) c')
| M_look r s c s1 c1 : matches r s c s1 c1 -> matches (Look r) s c s c1
| M_eol s c : at_end s = true -> matches Eol s c s c.

#[local] Hint Constructors matches : core.

(** Soundness and completeness of one matching step, as the two theorems
    on [m] below state them. *)
Definition sound_step (r : regex) (step : K -> K) : Prop :=
  forall k s c res, step k s c = Some res ->
    exists s1 c1, matches r s c s1 c1 /\ k s1 c1 = Some res.

Definition complete_at (r : regex) (s s1 : str) : Prop :=
  forall k c, (forall c', k s1 c' <> None) ->
    m r k s c <> None /\
    forall g lo hi r1 fuel,
      r = Rep g lo hi r1 -> List.length s < fuel ->
      rep_loop (m r1) g k fuel lo hi s c <> None.

(** Bindings located behind a lead-in.

    [located lead r]: any binding a match of [r] adds to group [k] is a
    piece of the text that directly follows a lead-in of [k] (for the text
    block: a tag of [k], or the tag and the sub-fields before [k]). *)
Definition behind (lead : string -> str -> Prop) (k : string) (v s : str) :=
  exists pre x post, s = pre ++ x ++ v ++ post /\ lead k x.

Definition located (lead : string -> str -> Prop) (r : regex) : Prop :=
  forall s c s' c', matches r s c s' c' ->
  forall k v, group c' k = Some v -> group c k = Some v \/ behind lead k v s.

(** ** The text catalog *)







(** A list of names without repetition. *)
Fixpoint uniq (l : list string) : bool :=
  match l with
  | [] => true
  | n :: l' => negb (existsb (String.eqb n) l') && uniq l'
  end.

(** ** Calendar dates *)

(** The Gregorian calendar, said the usual way: thirty days for April,
    June, September and November, twenty-eight or twenty-nine for February,
    thirty-one for the rest; years as [datetime] accepts them. *)
Definition leap_year (y : Z) : bool :=
  ((y mod 400 =? 0) || ((y mod 4 =? 0) && negb (y mod 100 =? 0)))%Z.

Definition month_length (y mo : Z) : Z :=
  if (mo =? 2)%Z then (if leap_year y then 29 else 28)%Z
  else if ((mo =? 4) || (mo =? 6) || (mo =? 9) || (mo =? 11))%Z then 30%Z
  else 31%Z.

Definition real_date (y mo d : Z) : bool :=
  (((1 <=? y) && (y <=? 9999))
   && (((1 <=? mo) && (mo <=? 12))
       && ((1 <=? d) && (d <=? month_length y mo))))%Z.

(** The three numbers [int] reads off the date groups of a match. *)
Definition settlement_digits (mo : caps) : option (Z * Z * Z) :=
  match group mo "date_year", group mo "date_month", group mo "date_day" with
  | Some yy, Some mm, Some dd =>
      match py_int yy, py_int mm, py_int dd with
      | Some y, Some mth, Some d => Some (y, mth, d)
      | _, _, _ => None
      end
  | _, _, _ => None
  end.

(** ** Shapes of fixed-width texts *)

(** A text fits a shape when it has one character per class, in order. *)
Fixpoint fits (ps : list (ascii -> bool)) (u : str) : bool :=
  match ps, u with
  | [], [] => true
  | p :: ps', a :: u' => p a && fits ps' u'
  | _, _ => false
  end.

(** The shape the code accepts: groups of 8, 4, 4, 4 and 12 ASCII letters
    or digits, the third led by [4], the fourth by one of [8 9 a b]. *)
Definition UETR_SHAPE : list (ascii -> bool) :=
  repeat alnum 8 ++ [is_char "-"] ++ repeat alnum 4
  ++ [is_char "-"; is_char "4"] ++ repeat alnum 3
  ++ [is_char "-"; one_of "89ab"] ++ repeat alnum 3
  ++ [is_char "-"] ++ repeat alnum 12.

Definition uetr_shape (u : str) : bool := fits UETR_SHAPE u.

(** The shape as C5 words it: five groups of 8, 4, 4, 4 and 12 hexadecimal
    digits of either case, the version nibble [4], the variant nibble one
    of [8 9 a b]. *)
Definition hex : ascii -> bool :=
  either digit (either (between 97 102) (between 65 70)).

Definition UETR_HEX_SHAPE : list (ascii -> bool) :=
  repeat hex 8 ++ [is_char "-"] ++ repeat hex 4
  ++ [is_char "-"; is_char "4"] ++ repeat hex 3
  ++ [is_char "-"; one_of "89ab"] ++ repeat hex 3
  ++ [is_char "-"] ++ repeat hex 12.

Definition uetr_hex_shape (u : str) : bool := fits UETR_HEX_SHAPE u.

(** The shape of a pattern made of literals, classes and exact counts. *)
Fixpoint shape_of (r : regex) : option (list (ascii -> bool)) :=
  match r with
  | Eps => Some []
  | Lit w => Some (map is_char w)
  | Chr p => Some [p]
  | Seq r1 r2 =>
      match shape_of r1, shape_of r2 with
      | Some a, Some b => Some (a ++ b)
      | _, _ => None
      end
  | Rep _ lo (Some hi) (Chr p) => if lo =? hi then Some (repeat p lo) else None
  | _ => None
  end.

(** ** Surrounding white space *)

(** The first character of [s], if any, is white space. *)
Definition starts_blank (s : str) : bool :=
  match s with
  | [] => false
  | a :: _ => space a
  end.

(** [s] neither begins nor ends with white space. *)
Definition trimmed (s : str) : Prop :=
  starts_blank s = false /\ starts_blank (rev s) = false.

(** ** Two messages of the repository's tests *)

Definition nl : str := ["010"%char].

Definition MESSAGE1 : str :=
  L "{1:F01ASDFJK20AXXX0987654321}{2:I103ASDFJK22XXXXN}"
  ++ L "{4: :20:20180101-ABCDEF :23B:GHIJ :32A:180117CAD5432,1 "
  ++ L ":33B:EUR9999,0 :50K:/123456-75901 SOMEWHERE New York 999999 GR "
  ++ L ":53B:/20100213012345 :57C://SC200123 "
  ++ L ":59:/201001020 First Name Last Name a12345bc6d789ef01a23 Nowhere NL "
  ++ L ":70:test reference test reason payment group: 1234567-ABCDEF "
  ++ L ":71A:SHA :77B:Test this -}".

Definition MESSAGE4 : str :=
  L "{1:F01AAAAGRA0AXXX0057000289}"
  ++ L "{2:O1030919010321BBBBGRA0AXXX00570001710103210920N}"
  ++ L "{3:{108:MT103 003 OF 045}{121:c8b66b47-2bd9-48fe-be90-93c2096f27d2}}"
  ++ L "{4:" ++ nl ++ L ":20:5387354" ++ nl ++ L ":23B:CRED" ++ nl
  ++ L ":23E:PHOB/20.527.19.60" ++ nl ++ L ":32A:000526USD1101,50" ++ nl
  ++ L ":33B:USD1121,50" ++ nl ++ L ":50K:FRANZ HOLZAPFEL GMBH" ++ nl
  ++ L "VIENNA" ++ nl ++ L ":52A:BKAUATWW" ++ nl ++ L ":59:723491524" ++ nl
  ++ L "C. KLEIN" ++ nl ++ L "BLOEMENGRACHT 15" ++ nl ++ L "AMSTERDAM" ++ nl
  ++ L ":71A:SHA" ++ nl ++ L ":71F:USD10," ++ nl ++ L ":71F:USD10," ++ nl
  ++ L ":72:/INS/CHASUS33" ++ nl ++ L "-}"
  ++ L "{5:{MAC:75D138E4}{CHK:DE1B0D71FA96}}".

(** ** Vocabulary of the further properties *)

(** The text of an attribute, [None] read as the empty text. *)
Definition text_of (o : option str) : str :=
  match o with
  | Some v => v
  | None => []
  end.

(** Any character but the closing brace, [[^}]]. *)
Definition no_close : ascii -> bool := nott (is_char "}").

(** How the five blocks of a valid message show in its raw text: [B] is
    the stretch of raw text of the block, empty when the block is absent,
    and the entity built from the block holds its payload. *)
Definition is_block1 (B : str) (b : BasicHeader.t) : Prop :=
  (B = [] /\ BasicHeader.raw b = []) \/
  (B = L "{1:" ++ BasicHeader.raw b ++ L "}" /\
   BasicHeader.raw b <> [] /\ forallb no_close (BasicHeader.raw b) = true).

Definition is_block2 (B : str) (a : ApplicationHeader.t) : Prop :=
  (B = [] /\ ApplicationHeader.raw a = None) \/
  (exists io rest,
     ApplicationHeader.raw a = Some (io :: rest) /\
     B = L "{2:" ++ (io :: rest) ++ L "}" /\
     (io = "I"%char \/ io = "O"%char) /\
     rest <> [] /\ forallb no_close rest = true).

Definition is_block3 (B : str) (u : UserHeader.t) : Prop :=
  (B = [] /\ UserHeader.raw u = []) \/
  B = L "{3:" ++ UserHeader.raw u ++ L "}".

Definition is_block4 (B : str) (t : Text.t) : Prop :=
  (B = [] /\ Text.raw t = []) \/
  (exists ws1 ws2,
     B = L "{4:" ++ ws1 ++ Text.raw t ++ ws2 ++ L "-}" /\
     forallb space ws1 = true /\ forallb space ws2 = true /\
     Text.raw t <> []).

Definition is_block5 (B : str) (trailer : option str) : Prop :=
  (B = [] /\ trailer = None) \/
  (exists w, trailer = Some w /\ B = L "{5:" ++ w ++ L "}" /\ w <> []).

(** The text of one user-header group, [{tag:value}], empty when the value
    is [None]; and of the four groups in their order. *)
Definition group_text (tg : string) (v : option str) : str :=
  match v with
  | Some w => L tg ++ w ++ L "}"
  | None => []
  end.
Arguments group_text tg%_string v.

Definition render_user_header (bpc mur sti uetr : option str) : str :=
  group_text "{113:" bpc ++ group_text "{108:" mur
  ++ group_text "{111:" sti ++ group_text "{121:" uetr.

(** The shapes of the four values, as the user-header pattern has them. *)
Definition bpc_ok (w : str) : bool := (List.length w =? 4) && forallb upper w.
Definition mur_ok (w : str) : bool :=
  (List.length w <=? 16) && forallb (either upper digit) w.
Definition sti_ok (w : str) : bool := (List.length w =? 3) && forallb digit w.

(** The message user reference as the envelope pattern has it: blanks too. *)
Definition mur_blank_ok (w : str) : bool :=
  (List.length w <=? 16)
  && forallb (either upper (either (is_char " ") digit)) w.

Definition opt_ok (ok : str -> bool) (v : option str) : bool :=
  match v with
  | Some w => ok w
  | None => true
  end.

(** ** Shapes of the values of the text block *)

(** Read off [Text.ITEMS]: for each group with a character class, the
    class and the least and greatest length of a value.  The free-text
    groups ([.*?]) and the time-indication class have no entry. *)
Definition VALUE_SHAPES
  : list (string * ((ascii -> bool) * (nat * option nat))) := [
  ("senders_reference", (Text.not_space_colon, (1, None)));
  ("time_indication_time", (digit, (4, Some 4)));
  ("time_indication_sign", (one_of "+-", (1, Some 1)));
  ("time_indication_offset", (digit, (4, Some 4)));
  ("bank_operation_code", (Text.not_space_colon, (1, None)));
  ("instruction_code", (Text.not_colon, (0, None)));
  ("transaction_type_code", (Text.not_colon, (0, None)));
  ("date_year", (digit, (2, Some 2)));
  ("date_month", (digit, (2, Some 2)));
  ("date_day", (digit, (2, Some 2)));
  ("interbank_settled_currency", (upper, (3, Some 3)));
  ("interbank_settled_amount", (Text.digit_comma, (1, None)));
  ("original_ordered_currency", (upper, (3, Some 3)));
  ("original_ordered_amount", (Text.digit_comma, (1, None)));
  ("exchange_rate", (Text.not_colon, (0, None)));
  ("sending_institution", (Text.not_colon, (0, None)));
  ("sender_correspondent", (Text.not_space_colon, (0, None)));
  ("sender_charges", (Text.not_colon, (0, None)));
  ("receiver_charges", (Text.not_colon, (0, None))) ]%string.

Definition value_shape (k : string)
  : option ((ascii -> bool) * (nat * option nat)) :=
  option_map snd (find (fun e => String.eqb k (fst e)) VALUE_SHAPES).

Definition has_shape (sh : (ascii -> bool) * (nat * option nat)) (v : str)
  : bool :=
  forallb (fst sh) v
  && (fst (snd sh) <=? List.length v)
  && match snd (snd sh) with
     | Some h => List.length v <=? h
     | None => true
     end.

(** [v] has the shape of group [k], if [k] has one. *)
Definition value_ok (k : string) (v : str) : bool :=
  match value_shape k with
  | Some sh => has_shape sh v
  | None => true
  end.

Definition text_value (k : string) (v : str) : Prop := value_ok k v = true.

(** Every binding a match of [r] adds satisfies [P]. *)
Definition valued (P : string -> str -> Prop) (r : regex) : Prop :=
  forall s c s' c', matches r s c s' c' ->
  forall k v, group c' k = Some v -> group c k = Some v \/ P k v.

(** ** Free text *)

(** The groups of [Text.ITEMS] written [(?P<n>.*?)\s*(?=(:\d\d)?)]. *)
Definition FREE_TEXT : list string := [
  "ordering_customer"; "ordering_institution"; "receiver_correspondent";
  "intermediary"; "account_with_institution"; "beneficiary";
  "remittance_information"; "details_of_charges";
  "sender_to_receiver_information"; "regulatory_reporting" ]%string.

(** The value bound to group [n], if any, does not end in white space. *)
Definition good (n : string) (c : caps) : Prop :=
  forall v, group c n = Some v -> starts_blank (rev v) = false.

(** A continuation that carries [good] from its bindings to its result,
    and one whose success does not depend on the bindings. *)
Definition keeps_good (n : string) (k : K) : Prop :=
  forall s c res, good n c -> k s c = Some res -> good n res.

Definition caps_blind (k : K) : Prop :=
  forall s c c', k s c <> None -> k s c' <> None.

(** A body as the envelope hands it on: trimmed, or one white-space
    character; and a continuation that carries a shape of the value of
    group [n] from its bindings to its result. *)
Definition body_ok (v : str) : Prop :=
  trimmed v \/ exists a, v = [a] /\ space a = true.

Definition held (P : str -> Prop) (n : string) (c : caps) : Prop :=
  forall v, group c n = Some v -> P v.

Definition keeps (P : str -> Prop) (n : string) (k : K) : Prop :=
  forall s c res, held P n c -> k s c = Some res -> held P n res.


(** ** The user-header grammar, said without the pattern *)

(** The text before the first [}] of [s], and the text behind it. *)
Fixpoint until_close (s : str) : option (str * str) :=
  match s with
  | [] => None
  | a :: s' =>
      if Ascii.eqb a "}"%char then Some ([], s')
      else match until_close s' with
           | Some (v, r) => Some (a :: v, r)
           | None => None
           end
  end.

(** Reads one optional group [{tag:value}], with a value of the class [ok],
    off the front of [s]: what is left behind it, or [s] itself when [s]
    does not begin with such a group. *)
Definition skip_group (tg : string) (ok : str -> bool) (s : str) : str :=
  match strip_prefix (L tg) s with
  | Some r =>
      match until_close r with
      | Some (v, rest) => if ok v then rest else s
      | None => s
      end
  | None => s
  end.
Arguments skip_group tg%_string ok s.

(** C7's grammar: four optional groups in the order 113, 108, 111, 121,
    each value of its class, and nothing else. *)
Definition user_header_grammar (s : str) : bool :=
  match skip_group "{121:" uetr_shape
          (skip_group "{111:" sti_ok
             (skip_group "{108:" mur_ok (skip_group "{113:" bpc_ok s))) with
  | [] => true
  | _ :: _ => false
  end.

(** [s] without its final newline, if it has one. *)
Definition chomp (s : str) : str :=
  match rev s with
  | a :: r => if Ascii.eqb a "010"%char then rev r else s
  | [] => s
  end.


(** ** The head of a body *)






(** ** The layout of a body *)




















(** * Theory of the matcher *)

Lemma strip_prefix_app (w s : str) : strip_prefix w (w ++ s) = Some s.
Proof.
  induction w as [|x w IH]; simpl; [reflexivity|].
  now rewrite Ascii.eqb_refl.
Qed.

Lemma strip_prefix_inv (w s s' : str) :
  strip_prefix w s = Some s' -> s = w ++ s'.
Proof.
  revert s; induction w as [|x w IH]; intros s H; simpl in *.
  - now inversion H.
  - destruct s as [|a s]; [discriminate|].
    destruct (Ascii.eqb x a) eqn:E; [|discriminate].
    apply Ascii.eqb_eq in E; subst a. f_equal. now apply IH.
Qed.

Lemma or_else_some a b x :
  or_else a b = Some x -> a = Some x \/ (a = None /\ b tt = Some x).
Proof. destruct a; simpl; intros H; [left|right]; auto. Qed.

(** ** The matcher only reports matches (soundness) *)

Section Soundness.

Lemma rep_loop_sound (r : regex) (step : K -> K) (g : greed) (k : K) :
  sound_step r step ->
  forall fuel lo hi s c res,
    rep_loop step g k fuel lo hi s c = Some res ->
    exists s1 c1, matches (Rep g lo hi r) s c s1 c1 /\ k s1 c1 = Some res.
Proof.
  intros Hstep; induction fuel as [|fuel IH]; intros lo hi s c res H;
    [discriminate|].
  assert (Hmore : forall x,
    (if hi_open hi
     then step (fun s' c' =>
                  if List.length s' <? List.length s
                  then rep_loop step g k fuel (pred lo) (dec_hi hi) s' c'
                  else None) s c
     else None) = Some x ->
    exists s1 c1, matches (Rep g lo hi r) s c s1 c1 /\ k s1 c1 = Some x).
  { intros x Hx. destruct (hi_open hi) eqn:Ho; [|discriminate].
    apply Hstep in Hx. destruct Hx as (s1 & c1 & Hm & Hk).
    destruct (List.length s1 <? List.length s) eqn:El; [|discriminate].
    apply Nat.ltb_lt in El. apply IH in Hk.
    destruct Hk as (s2 & c2 & Hm2 & Hk2). eauto 6. }
  assert (Hstop : forall x,
    match lo with 0 => k s c | S _ => None end = Some x ->
    exists s1 c1, matches (Rep g lo hi r) s c s1 c1 /\ k s1 c1 = Some x).
  { intros x Hx. destruct lo; [|discriminate]. eauto. }
  simpl in H. destruct g; apply or_else_some in H;
    destruct H as [H|[_ H]]; auto.
Qed.

Theorem m_sound (r : regex) : sound_step r (m r).
Proof.
  induction r as [|w|p|r1 IH1 r2 IH2|r1 IH1 r2 IH2|g lo hi r1 IH|n r1 IH|r1 IH|];
    intros k s c res H; cbn [m] in H.
  - eauto.
  - destruct (strip_prefix w s) as [s'|] eqn:E; [|discriminate].
    apply strip_prefix_inv in E; subst s. eauto.
  - destruct s as [|a s]; [discriminate|].
    destruct (p a) eqn:E; [|discriminate]. eauto.
  - apply IH1 in H. destruct H as (s1 & c1 & H1 & H).
    apply IH2 in H. destruct H as (s2 & c2 & H2 & H). eauto.
  - apply or_else_some in H. destruct H as [H|[_ H]].
    + apply IH1 in H. destruct H as (s1 & c1 & H1 & H). eauto.
    + apply IH2 in H. destruct H as (s1 & c1 & H1 & H). eauto.
  - eapply rep_loop_sound; eauto.
  - apply IH in H. destruct H as (s1 & c1 & H1 & H). eauto.
  - destruct (m r1 (fun _ c' => Some c') s c) as [c'|] eqn:E; [|discriminate].
    apply IH in E. destruct E as (s1 & c1 & H1 & E). inversion E; subst c1.
    eauto.
  - destruct (at_end s) eqn:E; [|discriminate]. eauto.
Qed.

Corollary re_match_sound (r : regex) (s : str) (mo : caps) :
  re_match r s = Some mo -> exists s1, matches r s [] s1 mo.
Proof.
  intros H. apply m_sound in H. destruct H as (s1 & c1 & H1 & H).
  inversion H; subst c1. eauto.
Qed.

End Soundness.

(** ** The matcher finds a match whenever there is one (completeness) *)

Section Completeness.

Lemma or_else_left a b : a <> None -> or_else a b <> None.
Proof. destruct a; simpl; congruence. Qed.

Lemma or_else_right a b : b tt <> None -> or_else a b <> None.
Proof. destruct a; simpl; congruence. Qed.

Lemma rep_from_loop (r1 : regex) (s s1 : str) g lo hi :
  (forall k c, (forall c', k s1 c' <> None) ->
     forall fuel, List.length s < fuel ->
       rep_loop (m r1) g k fuel lo hi s c <> None) ->
  complete_at (Rep g lo hi r1) s s1.
Proof.
  intros H k c Hk; split.
  - cbn [m]. apply H; auto.
  - intros g' lo' hi' r1' fuel E Hf. inversion E; subst. apply H; auto.
Qed.

Theorem m_complete r s c s1 c1 :
  matches r s c s1 c1 -> complete_at r s s1.
Proof.
  induction 1 as
    [s c|w s c|p a s c Hp|r1 r2 s c s1 c1 s2 c2 _ IH1 _ IH2
    |r1 r2 s c s' c' _ IH|r1 r2 s c s' c' _ IH
    |g hi r s c|g lo hi r s c s1 c1 s2 c2 Ho _ IH1 Hl _ IH2
    |n r s c s' c' _ IH|r s c s1 c1 _ IH|s c He].
  - intros k c0 Hk; split; [simpl; auto|discriminate].
  - intros k c0 Hk; split; [|discriminate].
    simpl. rewrite strip_prefix_app. auto.
  - intros k c0 Hk; split; [|discriminate]. simpl. rewrite Hp. auto.
  - intros k c0 Hk; split; [|discriminate]. simpl.
    apply IH1. intros c'. apply IH2. exact Hk.
  - intros k c0 Hk; split; [|discriminate]. simpl.
    apply or_else_left. now apply IH.
  - intros k c0 Hk; split; [|discriminate]. simpl.
    apply or_else_right. now apply IH.
  - apply rep_from_loop. intros k c0 Hk fuel Hf.
    destruct fuel as [|fuel]; [inversion Hf|]. simpl.
    destruct g; [apply or_else_right|apply or_else_left]; apply Hk.
  - apply rep_from_loop. intros k c0 Hk fuel Hf.
    destruct fuel as [|fuel]; [inversion Hf|].
    assert (Hmore :
      (if hi_open hi
       then m r (fun s' c' =>
                   if List.length s' <? List.length s
                   then rep_loop (m r) g k fuel (pred lo) (dec_hi hi) s' c'
                   else None) s c0
       else None) <> None).
    { rewrite Ho. apply IH1. intros c'.
      apply Nat.ltb_lt in Hl as Hl'. rewrite Hl'.
      eapply IH2; eauto. lia. }
    simpl. destruct g; [apply or_else_left; exact Hmore|].
    destruct lo; [|exact Hmore].
    unfold or_else. destruct (k s c0); [discriminate|exact Hmore].
  - intros k c0 Hk; split; [|discriminate]. simpl.
    apply IH. intros c'0. apply Hk.
  - intros k c0 Hk; split; [|discriminate]. simpl.
    destruct (m r (fun _ c' => Some c') s c0) eqn:E.
    + apply Hk.
    + exfalso. revert E. apply IH. discriminate.
  - intros k c0 Hk; split; [|discriminate]. simpl. rewrite He. apply Hk.
Qed.

Corollary re_match_complete r s s1 c1 :
  matches r s [] s1 c1 -> re_match r s <> None.
Proof.
  intros H. apply (m_complete H). discriminate.
Qed.


End Completeness.

(** ** Where the bindings of a match come from *)

Ltac minv H := inversion H; subst; clear H.

Lemma seq_inv r1 r2 s c s' c' :
  matches (Seq r1 r2) s c s' c' ->
  exists s1 c1, matches r1 s c s1 c1 /\ matches r2 s1 c1 s' c'.
Proof. intros H; minv H; eauto. Qed.

Lemma alt_inv r1 r2 s c s' c' :
  matches (Alt r1 r2) s c s' c' ->
  matches r1 s c s' c' \/ matches r2 s c s' c'.
Proof. intros H; minv H; eauto. Qed.

Lemma lit_inv w s c s' c' :
  matches (Lit w) s c s' c' -> s = w ++ s' /\ c' = c.
Proof. intros H; minv H; eauto. Qed.

Lemma chr_inv p s c s' c' :
  matches (Chr p) s c s' c' -> exists a, s = a :: s' /\ p a = true /\ c' = c.
Proof. intros H; minv H; eauto. Qed.

Lemma eps_inv s c s' c' : matches Eps s c s' c' -> s' = s /\ c' = c.
Proof. intros H; minv H; eauto. Qed.

Lemma eol_inv s c s' c' :
  matches Eol s c s' c' -> s' = s /\ c' = c /\ at_end s = true.
Proof. intros H; minv H; eauto. Qed.

Lemma group_inv n r s c s' c' :
  matches (Group n r) s c s' c' ->
  exists c1, matches r s c s' c1 /\
    c' = bind n (firstn (List.length s - List.length s') s) c1.
Proof. intros H; minv H; eauto. Qed.

Lemma rep_inv g lo hi r s c s' c' :
  matches (Rep g lo hi r) s c s' c' ->
  (lo = 0 /\ s' = s /\ c' = c) \/
  (hi_open hi = true /\
   exists s1 c1, matches r s c s1 c1 /\ List.length s1 < List.length s /\
     matches (Rep g (pred lo) (dec_hi hi) r) s1 c1 s' c').
Proof. intros H; minv H; [left|right]; eauto 8. Qed.

(** [r?] either matches [r] or nothing. *)
Lemma opt_inv r s c s' c' :
  matches (opt r) s c s' c' -> (s' = s /\ c' = c) \/ matches r s c s' c'.
Proof.
  intros H. apply rep_inv in H. destruct H as [(_ & -> & ->)|(_ & H)]; auto.
  destruct H as (s1 & c1 & H1 & _ & H2). apply rep_inv in H2.
  destruct H2 as [(_ & -> & ->)|(Ho & _)]; [auto|discriminate].
Qed.

Lemma matches_suffix r s c s' c' :
  matches r s c s' c' -> exists w, s = w ++ s'.
Proof.
  induction 1 as
    [s c|w s c|p a s c Hp|r1 r2 s c s1 c1 s2 c2 _ IH1 _ IH2
    |r1 r2 s c s' c' _ IH|r1 r2 s c s' c' _ IH
    |g hi r s c|g lo hi r s c s1 c1 s2 c2 Ho _ IH1 Hl _ IH2
    |n r s c s' c' _ IH|r s c s1 c1 _ IH|s c He];
    try (now exists []); try assumption.
  - now exists w.
  - now exists [a].
  - destruct IH1 as [w1 ->], IH2 as [w2 ->]. exists (w1 ++ w2).
    now rewrite app_assoc.
  - destruct IH1 as [w1 ->], IH2 as [w2 ->]. exists (w1 ++ w2).
    now rewrite app_assoc.
Qed.

Lemma firstn_consumed (w s' : str) :
  firstn (List.length (w ++ s') - List.length s') (w ++ s') = w.
Proof.
  rewrite length_app, Nat.add_sub.
  rewrite firstn_app, Nat.sub_diag, firstn_all. simpl. apply app_nil_r.
Qed.

Lemma group_bind n v c k :
  group (bind n v c) k = if String.eqb k n then Some v else group c k.
Proof. reflexivity. Qed.

(** A pattern leaves alone the groups it does not contain. *)
Lemma matches_other r s c s' c' :
  matches r s c s' c' ->
  forall k, ~ In k (names r) -> group c' k = group c k.
Proof.
  induction 1 as
    [s c|w s c|p a s c Hp|r1 r2 s c s1 c1 s2 c2 _ IH1 _ IH2
    |r1 r2 s c s' c' _ IH|r1 r2 s c s' c' _ IH
    |g hi r s c|g lo hi r s c s1 c1 s2 c2 Ho _ IH1 Hl _ IH2
    |n r s c s' c' _ IH|r s c s1 c1 _ IH|s c He];
    intros k Hk; simpl in Hk; try reflexivity;
    try (rewrite in_app_iff in Hk).
  - rewrite IH2, IH1; tauto.
  - apply IH; tauto.
  - apply IH; tauto.
  - rewrite IH2, IH1; auto.
  - rewrite group_bind. destruct (String.eqb k n) eqn:E.
    + apply String.eqb_eq in E. subst k. tauto.
    + apply IH; tauto.
  - now apply IH.
Qed.

Corollary matches_groupless r s c s' c' :
  matches r s c s' c' -> names r = [] -> forall k, group c' k = group c k.
Proof.
  intros H E k. apply (matches_other H). rewrite E. simpl; tauto.
Qed.


Section Located.

Variable lead : string -> str -> Prop.




Lemma located_alt r1 r2 :
  located lead r1 -> located lead r2 -> located lead (Alt r1 r2).
Proof.
  intros L1 L2 s c s' c' H k v Hk.
  apply alt_inv in H. destruct H; [eapply L1|eapply L2]; eauto.
Qed.




End Located.

(** * The text block *)

(** ** The attribute loop *)

Lemma getattr_setattr self k' v k :
  Text.getattr (Text.setattr self k' v) k
  = if String.eqb k k' then Some v else Text.getattr self k.
Proof.
  unfold Text.getattr, Text.setattr; simpl. now destruct (String.eqb k k').
Qed.

Lemma hasattr_setattr self k' v k :
  Text.hasattr self k = true -> Text.hasattr (Text.setattr self k' v) k = true.
Proof.
  unfold Text.hasattr, Text.setattr; simpl. intros ->. apply orb_true_r.
Qed.

Lemma keep_has self kv k :
  Text.hasattr self k = true -> Text.hasattr (Text.keep self kv) k = true.
Proof.
  intros H. unfold Text.keep. destruct (snd kv); auto.
  destruct (String.prefix "date_" (fst kv)); auto.
  destruct (negb (Text.hasattr self (fst kv))); auto.
  now apply hasattr_setattr.
Qed.

Lemma keep_get self n x k :
  Text.hasattr self k = true -> String.prefix "date_" k = false ->
  Text.getattr (Text.keep self (n, x)) k
  = if String.eqb k n
    then match x with Some v => Some v | None => Text.getattr self k end
    else Text.getattr self k.
Proof.
  intros Hh Hd. unfold Text.keep; simpl.
  destruct (String.eqb k n) eqn:E.
  - apply String.eqb_eq in E; subst n. destruct x; auto.
    rewrite Hd, Hh. simpl. rewrite getattr_setattr. now rewrite String.eqb_refl.
  - destruct x; auto. destruct (String.prefix "date_" n); auto.
    destruct (negb (Text.hasattr self n)); auto.
    rewrite getattr_setattr. now rewrite E.
Qed.

Lemma fold_keep_get (mo : caps) (ns : list string) :
  forall self k,
    uniq ns = true ->
    Text.hasattr self k = true -> String.prefix "date_" k = false ->
    Text.getattr
      (fold_left Text.keep (map (fun n => (n, group mo n)) ns) self) k
    = if existsb (String.eqb k) ns
      then match group mo k with
           | Some v => Some v
           | None => Text.getattr self k
           end
      else Text.getattr self k.
Proof.
  induction ns as [|n ns IH]; intros self k Hu Hh Hd; [reflexivity|].
  simpl in Hu. apply andb_true_iff in Hu. destruct Hu as [Hn Hu].
  apply negb_true_iff in Hn.
  simpl. rewrite IH; auto using keep_has.
  rewrite keep_get by assumption.
  destruct (String.eqb k n) eqn:E; simpl; [|reflexivity].
  apply String.eqb_eq in E; subst n. rewrite Hn.
  reflexivity.
Qed.

Lemma fold_keep_rest (gd : list (string * option str)) :
  forall self,
    Text.raw (fold_left Text.keep gd self) = Text.raw self /\
    Text.date (fold_left Text.keep gd self) = Text.date self /\
    Text._boolean (fold_left Text.keep gd self) = Text._boolean self.
Proof.
  induction gd as [|kv gd IH]; intros self; simpl; [auto|].
  destruct (IH (Text.keep self kv)) as (-> & -> & ->).
  unfold Text.keep. destruct (snd kv); auto.
  destruct (String.prefix "date_" (fst kv)); auto.
  destruct (negb (Text.hasattr self (fst kv))); auto.
Qed.

Lemma getattr_init (raw : str) (d : option datetime.date) (b : bool) k :
  Text.getattr (Text.mk raw (map (fun k => (k, None)) Text.ATTRS) d b) k = None.
Proof.
  unfold Text.getattr; cbn [Text.dict].
  induction Text.ATTRS as [|a l IH]; simpl; [reflexivity|].
  destruct (String.eqb k a); auto.
Qed.

Lemma attrs_are_groups k :
  In k Text.ATTRS ->
  existsb (String.eqb k) (names Text.REGEX) = true /\
  String.prefix "date_" k = false /\
  forall raw d b,
    Text.hasattr (Text.mk raw (map (fun k => (k, None)) Text.ATTRS) d b) k
    = true.
Proof.
  intros Hk. simpl in Hk.
  repeat (destruct Hk as [<-|Hk]; [repeat split|]). contradiction.
Qed.

(** What [Text(raw)] is when the pattern matches: every string attribute is
    the group of its name, and the date is derived from the date groups. *)
Lemma text_matched (raw : str) (mo : caps) :
  truthy raw = true -> re_match Text.REGEX raw = Some mo ->
  Text._boolean (Text.__init__ raw) = true /\
  Text.raw (Text.__init__ raw) = raw /\
  Text.date (Text.__init__ raw) = Text.derive_date mo /\
  forall k, In k Text.ATTRS -> Text.getattr (Text.__init__ raw) k = group mo k.
Proof.
  intros Ht Hm. unfold Text.__init__, Text._populate_by_parsing.
  cbn [Text.raw Text.dict Text.date Text._boolean]. rewrite Ht, Hm.
  cbn [negb Text.raw Text.dict Text.date Text._boolean].
  match goal with |- context [fold_left Text.keep ?gd ?s] =>
    destruct (fold_keep_rest gd s) as (Hr & Hd & Hb) end.
  rewrite Hr, Hd, Hb. cbn [Text.raw Text.date Text._boolean].
  repeat split.
  - now destruct (Text.derive_date mo).
  - intros k Hk. unfold Text.getattr at 1. cbn [Text.dict].
    match goal with |- context [fold_left Text.keep ?gd ?s] =>
      change (Text.getattr (fold_left Text.keep gd s) k = group mo k) end.
    destruct (attrs_are_groups Hk) as (He & Hp & Hh).
    unfold groupdict. rewrite fold_keep_get by (auto; reflexivity).
    rewrite He, getattr_init. now destruct (group mo k).
Qed.

(** What [Text(raw)] is otherwise: nothing but [raw] is set. *)
Lemma text_unmatched (raw : str) :
  truthy raw = false \/ re_match Text.REGEX raw = None ->
  Text._boolean (Text.__init__ raw) = false /\
  Text.raw (Text.__init__ raw) = raw /\
  Text.date (Text.__init__ raw) = None /\
  forall k, Text.getattr (Text.__init__ raw) k = None.
Proof.
  intros H. unfold Text.__init__, Text._populate_by_parsing.
  cbn [Text.raw Text.dict Text.date Text._boolean].
  destruct (truthy raw) eqn:Ht; cbn [negb].
  - destruct H as [H|H]; [discriminate|]. rewrite H.
    auto using getattr_init.
  - auto using getattr_init.
Qed.

(** ** Every binding of the text pattern lies behind its tag *)











(** * The repository's tests, replayed

    What [tests.py] asserts of the first and the fourth test message, on
    the attributes this version of the module has. *)

Example test_populate_by_parsing_message1 :
  let e := MT10x.__init__ (Some MESSAGE1) in
  MT10x.__bool__ e = true /\ MT10x.__str__ e = MESSAGE1 /\
  option_map BasicHeader.raw (MT10x.basic_header e)
  = Some (L "F01ASDFJK20AXXX0987654321") /\
  option_map ApplicationHeader.raw (MT10x.application_header e)
  = Some (Some (L "I103ASDFJK22XXXXN")) /\
  option_map UserHeader._boolean (MT10x.user_header e) = Some false /\
  MT10x.trailer e = None /\
  exists body,
    MT10x.text e = Some body /\ Text._boolean body = true /\
    Text.senders_reference body = Some (L "20180101-ABCDEF") /\
    Text.bank_operation_code body = Some (L "GHIJ") /\
    Text.interbank_settled_currency body = Some (L "CAD") /\
    Text.interbank_settled_amount body = Some (L "5432,1") /\
    Text.original_ordered_currency body = Some (L "EUR") /\
    Text.original_ordered_amount body = Some (L "9999,0") /\
    Text.date body = Some (datetime.Date 2018 1 17) /\
    Text.ordering_customer body
    = Some (L "/123456-75901 SOMEWHERE New York 999999 GR") /\
    Text.ordering_institution body = None /\
    Text.sender_correspondent body = Some (L "/20100213012345") /\
    Text.receiver_correspondent body = None /\
    Text.intermediary body = None /\
    Text.account_with_institution body = Some (L "//SC200123") /\
    Text.beneficiary body
    = Some (L "/201001020 First Name Last Name a12345bc6d789ef01a23 Nowhere NL")
    /\
    Text.remittance_information body
    = Some (L "test reference test reason payment group: 1234567-ABCDEF") /\
    Text.details_of_charges body = Some (L "SHA") /\
    Text.sender_to_receiver_information body = None /\
    Text.regulatory_reporting body = Some (L "Test this").
Proof.
  cbv zeta. repeat (split; [vm_compute; reflexivity|]).
  eexists. split; [vm_compute; reflexivity|]. vm_compute. repeat split.
Qed.

Example test_populate_by_parsing_message4 :
  let e := MT10x.__init__ (Some MESSAGE4) in
  MT10x.__bool__ e = true /\ MT10x.__str__ e = MESSAGE4 /\
  MT10x.trailer e = Some (L "{MAC:75D138E4}{CHK:DE1B0D71FA96}") /\
  option_map UserHeader.raw (MT10x.user_header e)
  = Some (L "{108:MT103 003 OF 045}{121:c8b66b47-2bd9-48fe-be90-93c2096f27d2}")
  /\
  exists body,
    MT10x.text e = Some body /\ Text._boolean body = true /\
    Text.senders_reference body = Some (L "5387354") /\
    Text.bank_operation_code body = Some (L "CRED") /\
    Text.interbank_settled_currency body = Some (L "USD") /\
    Text.interbank_settled_amount body = Some (L "1101,50") /\
    Text.original_ordered_currency body = Some (L "USD") /\
    Text.original_ordered_amount body = Some (L "1121,50") /\
    Text.date body = Some (datetime.Date 2000 5 26) /\
    Text.ordering_customer body
    = Some (L "FRANZ HOLZAPFEL GMBH" ++ nl ++ L "VIENNA") /\
    Text.ordering_institution body = Some (L "BKAUATWW") /\
    Text.beneficiary body
    = Some (L "723491524" ++ nl ++ L "C. KLEIN" ++ nl
            ++ L "BLOEMENGRACHT 15" ++ nl ++ L "AMSTERDAM") /\
    Text.remittance_information body = None /\
    Text.details_of_charges body = Some (L "SHA") /\
    Text.sender_to_receiver_information body = Some (L "/INS/CHASUS33") /\
    Text.regulatory_reporting body = None.
Proof.
  cbv zeta. repeat (split; [vm_compute; reflexivity|]).
  eexists. split; [vm_compute; reflexivity|]. vm_compute. repeat split.
Qed.

(** * The claims *)

(** ** Round trip *)

Lemma populate_keeps_raw (self : MT10x.t) :
  MT10x.raw (MT10x._populate_by_parsing self) = MT10x.raw self.
Proof.
  unfold MT10x._populate_by_parsing.
  destruct (negb (truthy (MT10x.raw self))); [reflexivity|].
  now destruct (re_match MT10x.MESSAGE_REGEX (MT10x.raw self)).
Qed.

(** C1, as stated, fails: a message with surrounding white space is not
    rendered back exactly; [__init__] strips it before storing it. *)
Lemma C1_counterexample :
  MT10x.__str__ (MT10x.__init__ (Some (L " {1:F01}"))) <> L " {1:F01}".
Proof. vm_compute. discriminate. Qed.

Lemma dropwhile_unblank (s : str) :
  starts_blank s = false -> dropwhile space s = s.
Proof. destruct s as [|a s]; simpl; [reflexivity|]. now intros ->. Qed.

Lemma strip_trimmed (s : str) : trimmed s -> strip s = s.
Proof.
  intros [H1 H2]. unfold strip, lstrip, rstrip.
  rewrite (dropwhile_unblank _ H1), (dropwhile_unblank _ H2).
  apply rev_involutive.
Qed.

(** C1, amended: for every input, valid or not, the rendering of the parsed
    message is the input stripped of surrounding white space ([None] counts
    as the empty text), hence exactly the input when that neither begins
    nor ends with white space; and parsing never changes the stored raw
    text. *)
Theorem C1_render_is_stripped_input :
  (forall message : option str,
     MT10x.__str__ (MT10x.__init__ message)
     = strip (match message with Some s => s | None => [] end)) /\
  (forall message : str,
     trimmed message ->
     MT10x.__str__ (MT10x.__init__ (Some message)) = message) /\
  (forall self : MT10x.t,
     MT10x.raw (MT10x._populate_by_parsing self) = MT10x.raw self).
Proof.
  assert (H : forall message : option str,
    MT10x.__str__ (MT10x.__init__ message)
    = strip (match message with Some s => s | None => [] end)).
  { intros message. unfold MT10x.__str__, MT10x.__init__.
    now rewrite populate_keeps_raw. }
  split; [exact H|split; [|apply populate_keeps_raw]].
  intros message Ht. rewrite H. now apply strip_trimmed.
Qed.

Lemma C1_render_is_stripped_input_witness :
  trimmed (L "{1:F01} junk") /\
  MT10x.__str__ (MT10x.__init__ (Some (L "{1:F01} junk"))) = L "{1:F01} junk".
Proof.
  assert (Ht : trimmed (L "{1:F01} junk")) by (split; reflexivity).
  split; [exact Ht|].
  exact (proj1 (proj2 C1_render_is_stripped_input) (L "{1:F01} junk") Ht).
Defined.

(** ** The end-to-end scenario *)

(** C3: the message whose block 4 is the payload
    [:20:REF1 :23B:CRED :32A:210101USD100,00] closed by the [-}] sentinel
    (with or without a blank before it) is valid, and so is its body, with
    the sender's reference, bank operation code, settlement currency and
    amount of the payload and the date 2021-01-01. *)
Theorem C3_end_to_end :
  forall sentinel : str,
    sentinel = L "-}" \/ sentinel = L " -}" ->
    let payload := L ":20:REF1 :23B:CRED :32A:210101USD100,00" in
    let e := MT10x.__init__ (Some (L "{4:" ++ payload ++ sentinel)) in
    MT10x.__bool__ e = true /\
    exists body,
      MT10x.text e = Some body /\
      Text.raw body = payload /\
      Text._boolean body = true /\
      Text.senders_reference body = Some (L "REF1") /\
      Text.bank_operation_code body = Some (L "CRED") /\
      Text.interbank_settled_currency body = Some (L "USD") /\
      Text.interbank_settled_amount body = Some (L "100,00") /\
      Text.date body = Some (datetime.Date 2021 1 1).
Proof.
  intros sentinel [-> | ->]; (split; [vm_compute; reflexivity|]);
    eexists; (split; [vm_compute; reflexivity|]);
    vm_compute; repeat split.
Qed.

Lemma C3_end_to_end_witness :
  let payload := L ":20:REF1 :23B:CRED :32A:210101USD100,00" in
  let e := MT10x.__init__ (Some (L "{4:" ++ payload ++ L " -}")) in
  MT10x.__bool__ e = true /\
  exists body,
    MT10x.text e = Some body /\
    Text.raw body = payload /\
    Text._boolean body = true /\
    Text.senders_reference body = Some (L "REF1") /\
    Text.bank_operation_code body = Some (L "CRED") /\
    Text.interbank_settled_currency body = Some (L "USD") /\
    Text.interbank_settled_amount body = Some (L "100,00") /\
    Text.date body = Some (datetime.Date 2021 1 1).
Proof. apply (@C3_end_to_end (L " -}")). right. reflexivity. Defined.

(** ** A body that does not match *)


(** ** Fixed-offset headers *)

Lemma slice_beyond (lo hi : nat) (raw : str) :
  List.length raw <= lo -> slice lo hi raw = [].
Proof.
  intros H. unfold slice. rewrite skipn_all2 by assumption.
  apply firstn_nil.
Qed.

(** C6, as stated, fails: on the one-character header [F] the service id
    lies beyond the available length, yet it is set, to the empty text. *)
Lemma C6_counterexample :
  BasicHeader._service_id (BasicHeader.__init__ (L "F")) <> None.
Proof. vm_compute. discriminate. Qed.

(** C6, amended: on every nonempty input both header extractions return
    (they are total), report valid and set every field to the slice of its
    fixed offsets; a slice that starts at or beyond the end of the input is
    the empty text, so the fields beyond the available length are set to
    the empty text, not left unset. *)
Theorem C6_headers_slice_any_length (raw : str) :
  raw <> [] ->
  (let b := BasicHeader.__init__ raw in
   BasicHeader._boolean b = true /\
   BasicHeader._application_id b = Some (slice 0 1 raw) /\
   BasicHeader._service_id b = Some (slice 1 3 raw) /\
   BasicHeader._logical_terminal_address b = Some (slice 3 15 raw) /\
   BasicHeader._session_number b = Some (slice 15 19 raw) /\
   BasicHeader._sequence_number b = Some (slice 19 25 raw)) /\
  (let a := ApplicationHeader.__init__ (Some raw) in
   ApplicationHeader._boolean a = true /\
   ApplicationHeader._input_output a = Some (slice 0 1 raw) /\
   ApplicationHeader._swift_message_type a = Some (slice 1 4 raw) /\
   ApplicationHeader._destination_address a = Some (slice 4 16 raw) /\
   ApplicationHeader._priority a = Some (slice 16 17 raw) /\
   ApplicationHeader._delivery_monitoring a = Some (slice 17 18 raw) /\
   ApplicationHeader._obsolescence_period a = Some (slice 18 21 raw)) /\
  (forall lo hi, List.length raw <= lo -> slice lo hi raw = []).
Proof.
  intros H. destruct raw as [|x raw]; [congruence|].
  repeat split. intros lo hi. apply slice_beyond.
Qed.

Lemma C6_headers_slice_any_length_witness :
  BasicHeader._session_number (BasicHeader.__init__ (L "F01")) = Some [] /\
  ApplicationHeader._priority (ApplicationHeader.__init__ (Some (L "F01")))
  = Some [].
Proof.
  destruct (@C6_headers_slice_any_length (L "F01")) as (Hb & Ha & Hs).
  - vm_compute. discriminate.
  - split.
    + destruct Hb as (_ & _ & _ & _ & Hb & _). rewrite Hb. f_equal.
    + destruct Ha as (_ & _ & _ & _ & Ha & _). rewrite Ha. f_equal.
Defined.

(** ** User header *)

(** C10: the message [{3:{108:AB CD}}] is valid while its user header is
    invalid with all four fields unset: the envelope pattern admits the
    blank inside group 108, the user-header pattern does not. *)
Theorem C10_message_valid_user_header_invalid :
  let e := MT10x.__init__ (Some (L "{3:{108:AB CD}}")) in
  MT10x.__bool__ e = true /\
  exists u,
    MT10x.user_header e = Some u /\
    UserHeader.raw u = L "{108:AB CD}" /\
    UserHeader._boolean u = false /\
    UserHeader.bank_priority_code u = None /\
    UserHeader.message_user_reference u = None /\
    UserHeader.service_type_identifier u = None /\
    UserHeader.unique_end_to_end_transaction_reference u = None.
Proof.
  split; [vm_compute; reflexivity|].
  eexists. split; [vm_compute; reflexivity|]. vm_compute. repeat split.
Qed.

(** ** Empty input *)





(** ** Date derivation *)

Lemma is_leap_leap_year (y : Z) : datetime._is_leap y = leap_year y.
Proof.
  unfold datetime._is_leap, leap_year.
  destruct (y mod 400 =? 0)%Z eqn:E400, (y mod 4 =? 0)%Z eqn:E4,
    (y mod 100 =? 0)%Z eqn:E100; try reflexivity; exfalso;
    rewrite ?Z.eqb_eq, ?Z.eqb_neq in *.
  - rewrite (Z.mod_divide y 4) in E4 by lia.
    rewrite (Z.mod_divide y 400) in E400 by lia.
    apply E4. destruct E400 as [q ->]. exists (q * 100)%Z. lia.
  - rewrite (Z.mod_divide y 4) in E4 by lia.
    rewrite (Z.mod_divide y 400) in E400 by lia.
    apply E4. destruct E400 as [q ->]. exists (q * 100)%Z. lia.
Qed.

Lemma date_new_real (y mo d : Z) :
  datetime.date_new y mo d
  = if real_date y mo d then Some (datetime.Date y mo d) else None.
Proof.
  unfold datetime.date_new, real_date.
  destruct ((1 <=? y) && (y <=? 9999))%Z; [|reflexivity].
  destruct ((1 <=? mo) && (mo <=? 12))%Z eqn:Em; [|reflexivity].
  cbn [negb andb].
  assert (El : datetime._days_in_month y mo = month_length y mo).
  { apply andb_true_iff in Em. destruct Em as [E1 E2].
    apply Z.leb_le in E1, E2.
    unfold datetime._days_in_month, month_length.
    rewrite is_leap_leap_year.
    assert (Hmo : (mo = 1 \/ mo = 2 \/ mo = 3 \/ mo = 4 \/ mo = 5 \/ mo = 6 \/
                   mo = 7 \/ mo = 8 \/ mo = 9 \/ mo = 10 \/ mo = 11 \/
                   mo = 12)%Z) by lia.
    repeat (destruct Hmo as [-> | Hmo]; [now destruct (leap_year y)|]).
    subst mo. now destruct (leap_year y). }
  rewrite El. now destruct ((1 <=? d) && (d <=? month_length y mo))%Z.
Qed.

(** C8: the settlement digits [180117] derive the date 2018-01-17; and on
    every body whose match holds the digit triple [y], [mth], [d], the date
    is [2000 + y]-[mth]-[d] when that is a real calendar date and stays
    unset when it is not (month 13, say), while the body stays valid and
    every string field is the matched group either way. *)
Theorem C8_date_derivation :
  Text.date (Text.__init__ (L ":32A:180117CAD5432,1"))
  = Some (datetime.Date 2018 1 17) /\
  forall (raw : str) (mo : caps) (y mth d : Z),
    re_match Text.REGEX raw = Some mo ->
    settlement_digits mo = Some (y, mth, d) ->
    Text.date (Text.__init__ raw)
    = (if real_date (2000 + y) mth d
       then Some (datetime.Date (2000 + y) mth d) else None) /\
    Text._boolean (Text.__init__ raw) = true /\
    forall k, In k Text.ATTRS -> Text.getattr (Text.__init__ raw) k = group mo k.
Proof.
  split; [vm_compute; reflexivity|].
  intros raw mo y mth d Hm Hs.
  assert (Ht : truthy raw = true).
  { destruct raw; [|reflexivity]. vm_compute in Hm. inversion Hm; subst mo.
    discriminate Hs. }
  destruct (text_matched _ Ht Hm) as (Hb & _ & Hd & Hk).
  repeat split; auto.
  rewrite Hd. unfold Text.derive_date. unfold settlement_digits in Hs.
  destruct (group mo "date_year") as [yy|]; [|discriminate].
  destruct (group mo "date_month") as [mm|]; [|discriminate].
  destruct (group mo "date_day") as [dd|]; [|discriminate].
  destruct (py_int yy); [|discriminate].
  destruct (py_int mm); [|discriminate].
  destruct (py_int dd); [|discriminate].
  inversion Hs; subst. apply date_new_real.
Qed.

Lemma C8_date_derivation_witness :
  Text.date (Text.__init__ (L ":32A:181317CAD5432,1")) = None /\
  Text._boolean (Text.__init__ (L ":32A:181317CAD5432,1")) = true /\
  Text.interbank_settled_currency (Text.__init__ (L ":32A:181317CAD5432,1"))
  = Some (L "CAD").
Proof.
  destruct C8_date_derivation as [_ H].
  edestruct (H (L ":32A:181317CAD5432,1")) as (Hd & Hb & Hk).
  - vm_compute. reflexivity.
  - vm_compute. reflexivity.
  - split; [|split].
    + rewrite Hd. reflexivity.
    + exact Hb.
    + unfold Text.interbank_settled_currency. rewrite Hk.
      * reflexivity.
      * vm_compute. tauto.
Defined.

(** ** The transaction reference *)

Lemma fits_app ps1 ps2 w1 w2 :
  fits ps1 w1 = true -> fits ps2 w2 = true -> fits (ps1 ++ ps2) (w1 ++ w2) = true.
Proof.
  revert w1; induction ps1 as [|p ps1 IH]; intros [|a w1] H1 H2;
    simpl in *; try discriminate; auto.
  apply andb_true_iff in H1. destruct H1 as [-> H1]. simpl. auto.
Qed.

Lemma fits_split ps1 ps2 w :
  fits (ps1 ++ ps2) w = true ->
  exists w1 w2, w = w1 ++ w2 /\ fits ps1 w1 = true /\ fits ps2 w2 = true.
Proof.
  revert w; induction ps1 as [|p ps1 IH]; intros w H.
  - exists [], w. auto.
  - destruct w as [|a w]; simpl in H; [discriminate|].
    apply andb_true_iff in H. destruct H as [Hp H].
    destruct (IH _ H) as (w1 & w2 & -> & H1 & H2).
    exists (a :: w1), w2. simpl. rewrite Hp. auto.
Qed.

Lemma fits_lit w : fits (map is_char w) w = true.
Proof.
  induction w as [|a w IH]; simpl; [reflexivity|].
  unfold is_char at 1. now rewrite Ascii.eqb_refl.
Qed.

Lemma fits_lit_inv w u : fits (map is_char w) u = true -> u = w.
Proof.
  revert u; induction w as [|a w IH]; intros [|b u] H; simpl in H;
    try discriminate; auto.
  apply andb_true_iff in H. destruct H as [E H].
  apply Ascii.eqb_eq in E. subst b. f_equal. auto.
Qed.

Lemma times_chr_inv g p n : forall s c s' c',
  matches (Rep g n (Some n) (Chr p)) s c s' c' ->
  exists w, s = w ++ s' /\ fits (repeat p n) w = true /\ c' = c.
Proof.
  induction n as [|n IH]; intros s c s' c' H; apply rep_inv in H.
  - destruct H as [(_ & -> & ->)|(Ho & _)]; [|discriminate].
    now exists [].
  - destruct H as [(E & _)|(_ & s1 & c1 & H1 & _ & H2)]; [discriminate|].
    apply chr_inv in H1. destruct H1 as (a & -> & Hp & ->).
    apply IH in H2. destruct H2 as (w & -> & Hw & ->).
    exists (a :: w). simpl. rewrite Hp. auto.
Qed.

Lemma times_chr_intro g p n : forall w s' c,
  fits (repeat p n) w = true ->
  matches (Rep g n (Some n) (Chr p)) (w ++ s') c s' c.
Proof.
  induction n as [|n IH]; intros [|a w] s' c H; simpl in H;
    try discriminate.
  - apply M_rep_stop.
  - apply andb_true_iff in H. destruct H as [Hp H].
    eapply M_rep_more with (s1 := w ++ s') (c1 := c).
    + reflexivity.
    + now apply M_chr.
    + simpl. lia.
    + now apply IH.
Qed.

Lemma shape_sound r : forall ps s c s' c',
  shape_of r = Some ps -> matches r s c s' c' ->
  exists w, s = w ++ s' /\ fits ps w = true /\ c' = c.
Proof.
  induction r as [|w|p|r1 IH1 r2 IH2|r1 _ r2 _|g lo hi r1 _|n r1 _|r1 _|];
    intros ps s c s' c' E H; simpl in E; try discriminate.
  - inversion E; subst. apply eps_inv in H. destruct H as [-> ->].
    now exists [].
  - inversion E; subst. apply lit_inv in H. destruct H as [-> ->].
    exists w. auto using fits_lit.
  - inversion E; subst. apply chr_inv in H. destruct H as (a & -> & Hp & ->).
    exists [a]. simpl. rewrite Hp. auto.
  - destruct (shape_of r1) as [a|]; [|discriminate].
    destruct (shape_of r2) as [b|]; [|discriminate].
    inversion E; subst. apply seq_inv in H. destruct H as (s1 & c1 & H1 & H2).
    destruct (IH1 _ _ _ _ _ eq_refl H1) as (w1 & -> & F1 & ->).
    destruct (IH2 _ _ _ _ _ eq_refl H2) as (w2 & -> & F2 & ->).
    exists (w1 ++ w2). rewrite <- app_assoc. auto using fits_app.
  - destruct hi as [hi|]; [|discriminate].
    destruct r1; try discriminate.
    destruct (lo =? hi) eqn:El; [|discriminate].
    apply Nat.eqb_eq in El. subst hi. inversion E; subst.
    now apply times_chr_inv in H.
Qed.

Lemma shape_complete r : forall ps w s' c,
  shape_of r = Some ps -> fits ps w = true -> matches r (w ++ s') c s' c.
Proof.
  induction r as [|w0|p|r1 IH1 r2 IH2|r1 _ r2 _|g lo hi r1 _|n r1 _|r1 _|];
    intros ps w s' c E F; simpl in E; try discriminate.
  - inversion E; subst. destruct w; [apply M_eps|discriminate].
  - inversion E; subst. apply fits_lit_inv in F. subst w. apply M_lit.
  - inversion E; subst. destruct w as [|a [|b w]]; simpl in F;
      try discriminate; [|now rewrite andb_false_r in F].
    rewrite andb_true_r in F. now apply M_chr.
  - destruct (shape_of r1) as [a|]; [|discriminate].
    destruct (shape_of r2) as [b|]; [|discriminate].
    inversion E; subst. apply fits_split in F.
    destruct F as (w1 & w2 & -> & F1 & F2). rewrite <- app_assoc.
    eapply M_seq; eauto.
  - destruct hi as [hi|]; [|discriminate].
    destruct r1; try discriminate.
    destruct (lo =? hi) eqn:El; [|discriminate].
    apply Nat.eqb_eq in El. subst hi. inversion E; subst.
    now apply times_chr_intro.
Qed.

Lemma opt_skip r s c : matches (opt r) s c s c.
Proof. apply M_rep_stop. Qed.

Lemma opt_take r s c s' c' :
  matches r s c s' c' -> List.length s' < List.length s ->
  matches (opt r) s c s' c'.
Proof.
  intros H Hl. eapply M_rep_more; eauto.
Qed.

Lemma at_end_inv s : at_end s = true -> s = [] \/ s = ["010"%char].
Proof.
  destruct s as [|a [|b s]]; simpl; intros H; try discriminate; auto.
  apply Ascii.eqb_eq in H. subst a. auto.
Qed.

Lemma uetr_shape_of : shape_of UETR = Some UETR_SHAPE.
Proof. reflexivity. Qed.

Lemma user_header_matched (raw : str) (mo : caps) :
  truthy raw = true -> re_match UserHeader.REGEX raw = Some mo ->
  UserHeader.__init__ raw
  = UserHeader.mk raw (group mo "bpc") (group mo "mur") (group mo "sti")
      (group mo "uetr") true.
Proof.
  intros Ht Hm. unfold UserHeader.__init__, UserHeader._populate_by_parsing.
  cbn [UserHeader.raw]. now rewrite Ht, Hm.
Qed.

Lemma user_header_valid (raw : str) :
  UserHeader._boolean (UserHeader.__init__ raw) = true ->
  exists mo, re_match UserHeader.REGEX raw = Some mo /\ truthy raw = true.
Proof.
  unfold UserHeader.__init__, UserHeader._populate_by_parsing.
  cbn [UserHeader.raw]. destruct (truthy raw); [|discriminate].
  cbn [negb]. destruct (re_match UserHeader.REGEX raw); [eauto|discriminate].
Qed.

(** C5, as stated, fails: a reference made of the letter [z], which is no
    hexadecimal digit, is accepted and kept. *)
Lemma C5_counterexample :
  uetr_hex_shape (L "zzzzzzzz-zzzz-4zzz-8zzz-zzzzzzzzzzzz") = false /\
  UserHeader._boolean
    (UserHeader.__init__ (L "{121:zzzzzzzz-zzzz-4zzz-8zzz-zzzzzzzzzzzz}")) = true /\
  UserHeader.uetr
    (UserHeader.__init__ (L "{121:zzzzzzzz-zzzz-4zzz-8zzz-zzzzzzzzzzzz}"))
  = Some (L "zzzzzzzz-zzzz-4zzz-8zzz-zzzzzzzzzzzz").
Proof. vm_compute. repeat split. Qed.

(** ** Fields of a valid body *)

Lemma text_valid (raw : str) :
  Text._boolean (Text.__init__ raw) = true ->
  exists mo, re_match Text.REGEX raw = Some mo /\ truthy raw = true.
Proof.
  intros H. destruct (truthy raw) eqn:Ht.
  - destruct (re_match Text.REGEX raw) as [mo|] eqn:Hm; [eauto|].
    destruct (@text_unmatched raw) as (Hb & _); auto. congruence.
  - destruct (@text_unmatched raw) as (Hb & _); auto. congruence.
Qed.


(** * Further properties of the code *)

(** ** Rendering and parsing again *)

Lemma dropwhile_snoc (p : ascii -> bool) (l : str) (a : ascii) :
  p a = false -> dropwhile p (l ++ [a]) = dropwhile p l ++ [a].
Proof.
  intros Ha. induction l as [|x l IH]; simpl.
  - now rewrite Ha.
  - destruct (p x); auto.
Qed.

Lemma dropwhile_unblanked (s : str) : starts_blank (dropwhile space s) = false.
Proof.
  induction s as [|a s IH]; simpl; [reflexivity|].
  destruct (space a) eqn:E; [exact IH|]. simpl. exact E.
Qed.

Lemma strip_is_trimmed (s : str) : trimmed (strip s).
Proof.
  unfold trimmed, strip, rstrip, lstrip. split.
  - pose proof (dropwhile_unblanked s) as H.
    destruct (dropwhile space s) as [|a t]; [reflexivity|].
    simpl in H. simpl rev. rewrite dropwhile_snoc by assumption.
    rewrite rev_app_distr. simpl. exact H.
  - rewrite rev_involutive. apply dropwhile_unblanked.
Qed.

(** X1: parsing the rendering of a parsed message gives the same message
    object again, whatever the first input was: [strip] is idempotent and
    nothing else of the input is stored. *)
Theorem X1_parse_render_parse (message : option str) :
  MT10x.__init__ (Some (MT10x.__str__ (MT10x.__init__ message)))
  = MT10x.__init__ message /\
  MT10x.__repr__ (MT10x.__init__ message)
  = MT10x.__str__ (MT10x.__init__ message).
Proof.
  split; [|reflexivity].
  unfold MT10x.__str__, MT10x.__init__ at 2. rewrite populate_keeps_raw.
  cbn [MT10x.raw]. unfold MT10x.__init__.
  now rewrite (strip_trimmed (strip_is_trimmed _)).
Qed.

Lemma user_header_keeps_raw (raw : str) :
  UserHeader.raw (UserHeader.__init__ raw) = raw.
Proof.
  unfold UserHeader.__init__, UserHeader._populate_by_parsing.
  cbn [UserHeader.raw]. destruct (negb (truthy raw)); [reflexivity|].
  now destruct (re_match UserHeader.REGEX raw).
Qed.

Lemma text_keeps_raw (raw : str) : Text.raw (Text.__init__ raw) = raw.
Proof.
  destruct (truthy raw) eqn:Ht.
  - destruct (re_match Text.REGEX raw) as [mo|] eqn:Hm.
    + now destruct (text_matched _ Ht Hm) as (_ & H & _).
    + destruct (@text_unmatched raw) as (_ & H & _); auto.
  - destruct (@text_unmatched raw) as (_ & H & _); auto.
Qed.

Lemma basic_header_keeps_raw (raw : str) :
  BasicHeader.raw (BasicHeader.__init__ raw) = raw.
Proof. now destruct raw. Qed.

Lemma application_header_keeps_raw (raw : option str) :
  ApplicationHeader.raw (ApplicationHeader.__init__ raw) = raw.
Proof. now destruct raw as [[|a r]|]. Qed.

(** X2: below the message level nothing is stripped: the string form (and
    the [repr]) of a basic header, user header or text block is the text it
    was built from, character for character, valid or not; the string form
    of an application header is its text too, and fails (Python raises
    [TypeError]) exactly when it was built from [None]. *)
Theorem X2_entities_render_verbatim :
  (forall raw, BasicHeader.__str__ (BasicHeader.__init__ raw) = raw /\
               BasicHeader.__repr__ (BasicHeader.__init__ raw) = raw) /\
  (forall raw, UserHeader.__str__ (UserHeader.__init__ raw) = raw /\
               UserHeader.__repr__ (UserHeader.__init__ raw) = raw) /\
  (forall raw, Text.__str__ (Text.__init__ raw) = raw /\
               Text.__repr__ (Text.__init__ raw) = raw) /\
  (forall raw,
     ApplicationHeader.__str__ (ApplicationHeader.__init__ raw) = raw /\
     (ApplicationHeader.__str__ (ApplicationHeader.__init__ raw) = None
      <-> raw = None)).
Proof.
  unfold BasicHeader.__repr__, UserHeader.__repr__, Text.__repr__,
    BasicHeader.__str__, UserHeader.__str__, Text.__str__,
    ApplicationHeader.__str__.
  repeat split;
    auto using basic_header_keeps_raw, user_header_keeps_raw, text_keeps_raw,
      application_header_keeps_raw;
    now rewrite application_header_keeps_raw.
Qed.

Lemma X2_entities_render_verbatim_witness :
  ApplicationHeader.__str__ (ApplicationHeader.__init__ None) = None.
Proof.
  apply (proj2 (proj2 (proj2 (proj2 X2_entities_render_verbatim)) None)).
  reflexivity.
Defined.

(** ** The fixed-offset fields tile the header *)

Lemma firstn_plus (n k : nat) (l : str) :
  firstn (n + k) l = firstn n l ++ firstn k (skipn n l).
Proof.
  revert l; induction n as [|n IH]; intros [|a l]; simpl;
    rewrite ?firstn_nil; auto.
  now rewrite IH.
Qed.

Lemma slice_join (a b c : nat) (s : str) :
  a <= b -> b <= c -> slice a b s ++ slice b c s = slice a c s.
Proof.
  intros Hab Hbc. unfold slice.
  replace (skipn b s) with (skipn (b - a) (skipn a s))
    by (rewrite skipn_skipn; f_equal; lia).
  replace (c - a) with ((b - a) + (c - b)) by lia.
  now rewrite firstn_plus.
Qed.

Lemma slice_prefix (n : nat) (s : str) : slice 0 n s = firstn n s.
Proof. unfold slice. now rewrite Nat.sub_0_r. Qed.

Lemma basic_header_sliced (raw : str) :
  raw <> [] ->
  BasicHeader.__init__ raw
  = BasicHeader.mk raw (Some (slice 0 1 raw)) (Some (slice 1 3 raw))
      (Some (slice 3 15 raw)) (Some (slice 15 19 raw))
      (Some (slice 19 25 raw)) true.
Proof. destruct raw; [congruence|reflexivity]. Qed.

Lemma application_header_sliced (raw : str) :
  raw <> [] ->
  ApplicationHeader.__init__ (Some raw)
  = ApplicationHeader.mk (Some raw) (Some (slice 0 1 raw))
      (Some (slice 1 4 raw)) (Some (slice 4 16 raw)) (Some (slice 16 17 raw))
      (Some (slice 17 18 raw)) (Some (slice 18 21 raw)) true.
Proof. destruct raw; [congruence|reflexivity]. Qed.

(** X3: on a nonempty input the five fields of a basic header, laid end to
    end, are the first 25 characters of the input, and the six fields of an
    application header the first 21: the offsets leave no gap and no
    overlap, and what lies beyond them is in no field.  A header of at
    most that length is therefore the concatenation of its fields. *)
Theorem X3_header_fields_tile_the_input (raw : str) :
  raw <> [] ->
  (let b := BasicHeader.__init__ raw in
   text_of (BasicHeader.application_id b)
   ++ text_of (BasicHeader.service_id b)
   ++ text_of (BasicHeader.logical_terminal_address b)
   ++ text_of (BasicHeader.session_number b)
   ++ text_of (BasicHeader.sequence_number b)
   = firstn 25 raw) /\
  (let a := ApplicationHeader.__init__ (Some raw) in
   text_of (ApplicationHeader.input_output a)
   ++ text_of (ApplicationHeader.swift_message_type a)
   ++ text_of (ApplicationHeader.destination_address a)
   ++ text_of (ApplicationHeader.priority a)
   ++ text_of (ApplicationHeader.delivery_monitoring a)
   ++ text_of (ApplicationHeader.obsolescence_period a)
   = firstn 21 raw) /\
  (List.length raw <= 21 ->
   firstn 25 raw = raw /\ firstn 21 raw = raw).
Proof.
  intros Hne. split; [|split].
  - rewrite (basic_header_sliced Hne). cbn [text_of
      BasicHeader.application_id BasicHeader.service_id
      BasicHeader.logical_terminal_address BasicHeader.session_number
      BasicHeader.sequence_number BasicHeader._application_id
      BasicHeader._service_id BasicHeader._logical_terminal_address
      BasicHeader._session_number BasicHeader._sequence_number].
    rewrite !slice_join by lia. apply slice_prefix.
  - rewrite (application_header_sliced Hne). cbn [text_of
      ApplicationHeader.input_output ApplicationHeader.swift_message_type
      ApplicationHeader.destination_address ApplicationHeader.priority
      ApplicationHeader.delivery_monitoring
      ApplicationHeader.obsolescence_period
      ApplicationHeader._input_output ApplicationHeader._swift_message_type
      ApplicationHeader._destination_address ApplicationHeader._priority
      ApplicationHeader._delivery_monitoring
      ApplicationHeader._obsolescence_period].
    rewrite !slice_join by lia. apply slice_prefix.
  - intros Hl. split; apply firstn_all2; lia.
Qed.

Lemma X3_header_fields_tile_the_input_witness :
  text_of (BasicHeader.application_id (BasicHeader.__init__ (L "F01AB")))
  ++ text_of (BasicHeader.service_id (BasicHeader.__init__ (L "F01AB")))
  ++ text_of
       (BasicHeader.logical_terminal_address (BasicHeader.__init__ (L "F01AB")))
  ++ text_of (BasicHeader.session_number (BasicHeader.__init__ (L "F01AB")))
  ++ text_of (BasicHeader.sequence_number (BasicHeader.__init__ (L "F01AB")))
  = firstn 25 (L "F01AB").
Proof.
  assert (Hne : L "F01AB" <> []) by (vm_compute; discriminate).
  exact (proj1 (@X3_header_fields_tile_the_input (L "F01AB") Hne)).
Defined.

(** ** Runs of one character class *)

Lemma rep_chr_inv g p lo hi s c s' c' :
  matches (Rep g lo hi (Chr p)) s c s' c' ->
  exists w, s = w ++ s' /\ forallb p w = true /\ lo <= List.length w /\
    (forall h, hi = Some h -> List.length w <= h) /\ c' = c.
Proof.
  intros H. remember (Rep g lo hi (Chr p)) as R eqn:ER. revert lo hi ER.
  induction H as
    [| | | | | |g' hi' r' s c|g' lo' hi' r' s c s1 c1 s2 c2 Ho H1 _ Hl H2 IH2
    | | | ]; intros lo0 hi0 ER; try discriminate.
  - inversion ER; subst. exists []. repeat split; auto. intros; simpl; lia.
  - inversion ER; subst. apply chr_inv in H1.
    destruct H1 as (a & -> & Hp & ->).
    destruct (IH2 _ _ eq_refl) as (w & -> & Hw & Hlo & Hhi & ->).
    exists (a :: w). simpl. rewrite Hp. repeat split; auto; [lia|].
    intros h ->. destruct h as [|h]; [discriminate|].
    specialize (Hhi h eq_refl). lia.
Qed.

Lemma rep_chr_intro g p : forall w lo hi s' c,
  forallb p w = true -> lo <= List.length w ->
  (forall h, hi = Some h -> List.length w <= h) ->
  matches (Rep g lo hi (Chr p)) (w ++ s') c s' c.
Proof.
  induction w as [|a w IH]; intros lo hi s' c Hw Hlo Hhi; simpl in *.
  - replace lo with 0 by lia. apply M_rep_stop.
  - apply andb_true_iff in Hw. destruct Hw as [Hp Hw].
    eapply M_rep_more with (s1 := w ++ s') (c1 := c).
    + destruct hi as [[|h]|]; auto. specialize (Hhi 0 eq_refl). lia.
    + now apply M_chr.
    + simpl. lia.
    + apply IH; auto; [lia|].
      intros h Eh. destruct hi as [h0|]; [|discriminate].
      simpl in Eh. inversion Eh; subst. specialize (Hhi h0 eq_refl). lia.
Qed.

(** ** The blocks of a valid message *)

Lemma block_inv o n x cl s c s' c' :
  matches (opt (Seq (Lit o) (Seq (Group n x) (Seq (Lit cl) Eps)))) s c s' c' ->
  (s' = s /\ c' = c) \/
  exists w cx, s = o ++ w ++ cl ++ s' /\
    matches x (w ++ cl ++ s') c (cl ++ s') cx /\ c' = bind n w cx.
Proof.
  intros H. apply opt_inv in H. destruct H as [H|H]; [now left|right].
  apply seq_inv in H. destruct H as (s1 & c1 & H1 & H).
  apply seq_inv in H. destruct H as (s2 & c2 & H2 & H).
  apply seq_inv in H. destruct H as (s3 & c3 & H3 & H).
  apply eps_inv in H. destruct H as [-> ->].
  apply lit_inv in H1. destruct H1 as [-> ->].
  apply lit_inv in H3. destruct H3 as [-> ->].
  apply group_inv in H2. destruct H2 as (cx & Hx & ->).
  destruct (matches_suffix Hx) as [w ->]. rewrite firstn_consumed.
  exists w, cx. auto.
Qed.

Ltac not_named := let H := fresh in intros H; vm_compute in H; intuition discriminate.

Lemma message_inv (raw s' : str) (mo : caps) :
  matches MT10x.MESSAGE_REGEX raw [] s' mo ->
  exists B1 B2 B3 B4 B5,
    raw = B1 ++ B2 ++ B3 ++ B4 ++ B5 ++ s' /\ at_end s' = true /\
    ((B1 = [] /\ group mo "basic_header" = None) \/
     (exists w, group mo "basic_header" = Some w /\
        B1 = L "{1:" ++ w ++ L "}" /\ w <> [] /\ forallb no_close w = true)) /\
    ((B2 = [] /\ group mo "application_header" = None) \/
     (exists io rest, group mo "application_header" = Some (io :: rest) /\
        B2 = L "{2:" ++ (io :: rest) ++ L "}" /\
        (io = "I"%char \/ io = "O"%char) /\
        rest <> [] /\ forallb no_close rest = true)) /\
    ((B3 = [] /\ group mo "user_header" = None) \/
     (exists w, group mo "user_header" = Some w /\
        B3 = L "{3:" ++ w ++ L "}" /\
        exists rest c c', matches MT10x.USER_HEADER (w ++ rest) c rest c')) /\
    ((B4 = [] /\ group mo "text" = None) \/
     (exists w ws1 ws2, group mo "text" = Some w /\
        B4 = L "{4:" ++ ws1 ++ w ++ ws2 ++ L "-}" /\
        forallb space ws1 = true /\ forallb space ws2 = true /\ w <> [])) /\
    ((B5 = [] /\ group mo "trailer" = None) \/
     (exists w, group mo "trailer" = Some w /\
        B5 = L "{5:" ++ w ++ L "}" /\ w <> [])).
Proof.
  intros H. unfold MT10x.MESSAGE_REGEX in H. cbn [seqs] in H.
  apply seq_inv in H. destruct H as (s1 & c1 & H1 & H).
  apply seq_inv in H. destruct H as (s2 & c2 & H2 & H).
  apply seq_inv in H. destruct H as (s3 & c3 & H3 & H).
  apply seq_inv in H. destruct H as (s4 & c4 & H4 & H).
  apply seq_inv in H. destruct H as (s5 & c5 & H5 & H).
  apply seq_inv in H. destruct H as (s6 & c6 & H6 & H).
  apply eps_inv in H. destruct H as [-> ->].
  apply eol_inv in H6. destruct H6 as (-> & -> & He).
  (* each group is decided by its own block *)
  assert (E1 : group c5 "basic_header" = group c1 "basic_header").
  { rewrite (matches_other H5), (matches_other H4), (matches_other H3),
      (matches_other H2); auto; not_named. }
  assert (E2 : group c5 "application_header" = group c2 "application_header").
  { rewrite (matches_other H5), (matches_other H4), (matches_other H3);
      auto; not_named. }
  assert (E3 : group c5 "user_header" = group c3 "user_header").
  { rewrite (matches_other H5), (matches_other H4); auto; not_named. }
  assert (E4 : group c5 "text" = group c4 "text").
  { rewrite (matches_other H5); auto; not_named. }
  assert (N2 : group c1 "application_header" = None).
  { rewrite (matches_other H1); auto; not_named. }
  assert (N3 : group c2 "user_header" = None).
  { rewrite (matches_other H2), (matches_other H1); auto; not_named. }
  assert (N4 : group c3 "text" = None).
  { rewrite (matches_other H3), (matches_other H2), (matches_other H1);
      auto; not_named. }
  assert (N5 : group c4 "trailer" = None).
  { rewrite (matches_other H4), (matches_other H3), (matches_other H2),
      (matches_other H1); auto; not_named. }
  rewrite E1, E2, E3, E4. clear E1 E2 E3 E4.
  (* block 1 *)
  assert (P1 : exists B1, raw = B1 ++ s1 /\
    ((B1 = [] /\ group c1 "basic_header" = None) \/
     (exists w, group c1 "basic_header" = Some w /\
        B1 = L "{1:" ++ w ++ L "}" /\ w <> [] /\ forallb no_close w = true))).
  { apply block_inv in H1. destruct H1 as [[-> ->]|(w & cx & -> & Hx & ->)].
    - exists []. split; [reflexivity|]. now left.
    - apply rep_chr_inv in Hx. destruct Hx as (w' & E & Hw & Hl & _ & ->).
      apply app_inv_tail in E. subst w'.
      exists (L "{1:" ++ w ++ L "}"). split; [now rewrite <- !app_assoc|].
      right. exists w. repeat split; auto.
      intros ->. simpl in Hl. lia. }
  (* block 2 *)
  assert (P2 : exists B2, s1 = B2 ++ s2 /\
    ((B2 = [] /\ group c2 "application_header" = None) \/
     (exists io rest, group c2 "application_header" = Some (io :: rest) /\
        B2 = L "{2:" ++ (io :: rest) ++ L "}" /\
        (io = "I"%char \/ io = "O"%char) /\
        rest <> [] /\ forallb no_close rest = true))).
  { apply block_inv in H2. destruct H2 as [[-> ->]|(w & cx & -> & Hx & ->)].
    - exists []. split; [reflexivity|]. now left.
    - apply seq_inv in Hx. destruct Hx as (t1 & d1 & Hio & Hx).
      apply rep_chr_inv in Hx. destruct Hx as (rest & E & Hw & Hl & _ & ->).
      assert (Hio' : exists io, (io = "I"%char \/ io = "O"%char) /\
                w ++ L "}" ++ s2 = io :: t1).
      { apply alt_inv in Hio. destruct Hio as [Hio|Hio];
          apply lit_inv in Hio; destruct Hio as [Eio _]; eauto. }
      destruct Hio' as (io & Hio' & Eio). subst t1.
      change (io :: rest ++ L "}" ++ s2) with ((io :: rest) ++ L "}" ++ s2)
        in Eio.
      apply app_inv_tail in Eio. subst w.
      exists (L "{2:" ++ (io :: rest) ++ L "}").
      split; [now rewrite <- !app_assoc|].
      right. exists io, rest. repeat split; auto.
      intros ->. simpl in Hl. lia. }
  (* block 3 *)
  assert (P3 : exists B3, s2 = B3 ++ s3 /\
    ((B3 = [] /\ group c3 "user_header" = None) \/
     (exists w, group c3 "user_header" = Some w /\
        B3 = L "{3:" ++ w ++ L "}" /\
        exists rest c c', matches MT10x.USER_HEADER (w ++ rest) c rest c'))).
  { apply block_inv in H3. destruct H3 as [[-> ->]|(w & cx & -> & Hx & ->)].
    - exists []. split; [reflexivity|]. now left.
    - exists (L "{3:" ++ w ++ L "}"). split; [now rewrite <- !app_assoc|].
      right. exists w. repeat split; eauto. }
  (* block 4 *)
  assert (P4 : exists B4, s3 = B4 ++ s4 /\
    ((B4 = [] /\ group c4 "text" = None) \/
     (exists w ws1 ws2, group c4 "text" = Some w /\
        B4 = L "{4:" ++ ws1 ++ w ++ ws2 ++ L "-}" /\
        forallb space ws1 = true /\ forallb space ws2 = true /\ w <> []))).
  { apply opt_inv in H4. destruct H4 as [[-> ->]|H4].
    - exists []. split; [reflexivity|]. now left.
    - apply seq_inv in H4. destruct H4 as (t1 & d1 & G1 & H4).
      apply seq_inv in H4. destruct H4 as (t2 & d2 & G2 & H4).
      apply seq_inv in H4. destruct H4 as (t3 & d3 & G3 & H4).
      apply seq_inv in H4. destruct H4 as (t4 & d4 & G4 & H4).
      apply seq_inv in H4. destruct H4 as (t5 & d5 & G5 & H4).
      apply eps_inv in H4. destruct H4 as [-> ->].
      apply lit_inv in G1. destruct G1 as [-> ->].
      apply rep_chr_inv in G2. destruct G2 as (ws1 & -> & Hws1 & _ & _ & ->).
      apply group_inv in G3. destruct G3 as (dx & G3 & ->).
      apply rep_chr_inv in G3. destruct G3 as (w & -> & _ & Hl & _ & ->).
      apply rep_chr_inv in G4. destruct G4 as (ws2 & -> & Hws2 & _ & _ & ->).
      apply lit_inv in G5. destruct G5 as [-> ->].
      rewrite firstn_consumed.
      exists (L "{4:" ++ ws1 ++ w ++ ws2 ++ L "-}").
      split; [now rewrite <- !app_assoc|].
      right. exists w, ws1, ws2. repeat split; auto.
      intros ->. simpl in Hl. lia. }
  (* block 5 *)
  assert (P5 : exists B5, s4 = B5 ++ s5 /\
    ((B5 = [] /\ group c5 "trailer" = None) \/
     (exists w, group c5 "trailer" = Some w /\
        B5 = L "{5:" ++ w ++ L "}" /\ w <> []))).
  { apply block_inv in H5. destruct H5 as [[-> ->]|(w & cx & -> & Hx & ->)].
    - exists []. split; [reflexivity|]. now left.
    - apply rep_chr_inv in Hx. destruct Hx as (w' & E & Hw & Hl & _ & ->).
      apply app_inv_tail in E. subst w'.
      exists (L "{5:" ++ w ++ L "}"). split; [now rewrite <- !app_assoc|].
      right. exists w. repeat split; auto.
      intros ->. simpl in Hl. lia. }
  destruct P1 as (B1 & -> & P1), P2 as (B2 & -> & P2), P3 as (B3 & -> & P3),
    P4 as (B4 & -> & P4), P5 as (B5 & -> & P5).
  exists B1, B2, B3, B4, B5. repeat split; auto.
Qed.

Lemma or_empty_some (w : str) : MT10x.or_empty (Some w) = w.
Proof. now destruct w. Qed.

(** What [MT10x(message)] is, by the outcome of the match. *)
Lemma message_cases (message : option str) :
  let raw := strip (match message with Some s => s | None => [] end) in
  (MT10x.__init__ message = MT10x.mk raw None None None None None false /\
   (raw = [] \/ re_match MT10x.MESSAGE_REGEX raw = None)) \/
  (exists mo,
     raw <> [] /\ re_match MT10x.MESSAGE_REGEX raw = Some mo /\
     MT10x.__init__ message
     = MT10x.mk raw
         (Some (BasicHeader.__init__
                  (MT10x.or_empty (group mo "basic_header"))))
         (Some (ApplicationHeader.__init__ (group mo "application_header")))
         (Some (UserHeader.__init__
                  (MT10x.or_empty (group mo "user_header"))))
         (Some (Text.__init__ (MT10x.or_empty (group mo "text"))))
         (group mo "trailer") true).
Proof.
  intros raw. unfold MT10x.__init__. fold raw.
  unfold MT10x._populate_by_parsing. cbn [MT10x.raw].
  destruct raw as [|x r] eqn:E; cbn [truthy negb]; [left; auto|].
  destruct (re_match MT10x.MESSAGE_REGEX (x :: r)) as [mo|] eqn:Hm.
  - right. exists mo. repeat split. discriminate.
  - left. auto.
Qed.

Lemma trimmed_no_final_newline (s : str) : ~ trimmed (s ++ nl).
Proof.
  intros [_ H]. rewrite rev_app_distr in H. simpl in H. discriminate H.
Qed.

(** X4: a valid message is its blocks laid end to end.  All four entities
    exist, and the raw text is the concatenation, in order, of the
    stretches of the five blocks, each either absent (its entity then holds
    the empty text, or [None] for the application header and the trailer)
    or of the form [{n:payload}] with the payload held verbatim by its
    entity; block 1 and 5 payloads are nonempty, a block 2 payload starts
    with [I] or [O], and the body of block 4 is nonempty and sits between
    two runs of white space inside [{4:] and [-}].  Nothing of the raw text
    lies outside these blocks. *)
Theorem X4_valid_message_is_its_blocks (message : option str) :
  MT10x.__bool__ (MT10x.__init__ message) = true ->
  exists b a u t B1 B2 B3 B4 B5,
    MT10x.basic_header (MT10x.__init__ message) = Some b /\
    MT10x.application_header (MT10x.__init__ message) = Some a /\
    MT10x.user_header (MT10x.__init__ message) = Some u /\
    MT10x.text (MT10x.__init__ message) = Some t /\
    MT10x.raw (MT10x.__init__ message) = B1 ++ B2 ++ B3 ++ B4 ++ B5 /\
    is_block1 B1 b /\ is_block2 B2 a /\ is_block3 B3 u /\ is_block4 B4 t /\
    is_block5 B5 (MT10x.trailer (MT10x.__init__ message)).
Proof.
  intros Hv. destruct (message_cases message) as [[E _]|(mo & Hne & Hm & E)].
  { rewrite E in Hv. discriminate Hv. }
  rewrite E. cbn [MT10x.basic_header MT10x.application_header
    MT10x.user_header MT10x.text MT10x.raw MT10x.trailer].
  apply re_match_sound in Hm. destruct Hm as (s' & Hm).
  apply message_inv in Hm.
  destruct Hm as (B1 & B2 & B3 & B4 & B5 & Eraw & He & P1 & P2 & P3 & P4 & P5).
  assert (Es : s' = []).
  { apply at_end_inv in He. destruct He as [->| ->]; [reflexivity|].
    exfalso. apply (@trimmed_no_final_newline (B1 ++ B2 ++ B3 ++ B4 ++ B5)).
    unfold nl. rewrite <- !app_assoc. rewrite <- Eraw.
    apply strip_is_trimmed. }
  subst s'. rewrite app_nil_r in Eraw.
  do 4 eexists. exists B1, B2, B3, B4, B5.
  repeat (split; [reflexivity|]). split; [exact Eraw|].
  split; [|split; [|split; [|split]]].
  - unfold is_block1. rewrite basic_header_keeps_raw.
    destruct P1 as [[-> ->]|(w & -> & -> & Hw & Hc)]; [now left|right].
    rewrite or_empty_some. auto.
  - unfold is_block2. rewrite application_header_keeps_raw.
    destruct P2 as [[-> ->]|(io & rest & -> & -> & H)]; [now left|right].
    exists io, rest. tauto.
  - unfold is_block3. rewrite user_header_keeps_raw.
    destruct P3 as [[-> ->]|(w & -> & -> & _)]; [now left|right].
    now rewrite or_empty_some.
  - unfold is_block4. rewrite text_keeps_raw.
    destruct P4 as [[-> ->]|(w & ws1 & ws2 & -> & -> & H)]; [now left|right].
    rewrite or_empty_some. exists ws1, ws2. tauto.
  - unfold is_block5.
    destruct P5 as [[-> ->]|(w & -> & -> & H)]; [now left|right].
    exists w. auto.
Qed.

Lemma X4_valid_message_is_its_blocks_witness :
  exists b a u t B1 B2 B3 B4 B5,
    MT10x.basic_header (MT10x.__init__ (Some MESSAGE4)) = Some b /\
    MT10x.application_header (MT10x.__init__ (Some MESSAGE4)) = Some a /\
    MT10x.user_header (MT10x.__init__ (Some MESSAGE4)) = Some u /\
    MT10x.text (MT10x.__init__ (Some MESSAGE4)) = Some t /\
    MT10x.raw (MT10x.__init__ (Some MESSAGE4)) = B1 ++ B2 ++ B3 ++ B4 ++ B5 /\
    is_block1 B1 b /\ is_block2 B2 a /\ is_block3 B3 u /\ is_block4 B4 t /\
    is_block5 B5 (MT10x.trailer (MT10x.__init__ (Some MESSAGE4))).
Proof.
  apply (@X4_valid_message_is_its_blocks (Some MESSAGE4)).
  vm_compute. reflexivity.
Defined.

(** X5: a message is valid exactly when its stripped text is nonempty and
    belongs to the language of the envelope pattern; and when it is not
    valid, none of the five sub-entities exists: no block of an ill-formed
    message is ever handed on. *)
Theorem X5_message_valid_iff_in_language (message : option str) :
  let e := MT10x.__init__ message in
  (MT10x.__bool__ e = true <->
   MT10x.raw e <> [] /\
   exists s' mo, matches MT10x.MESSAGE_REGEX (MT10x.raw e) [] s' mo) /\
  (MT10x.__bool__ e = false ->
   MT10x.basic_header e = None /\ MT10x.application_header e = None /\
   MT10x.user_header e = None /\ MT10x.text e = None /\
   MT10x.trailer e = None).
Proof.
  cbv zeta.
  destruct (message_cases message) as [[E Hc]|(mo & Hne & Hm & E)];
    rewrite E; cbn.
  - split; [split|auto 6].
    + discriminate.
    + intros (Hne & s' & mo & Hm). exfalso. destruct Hc as [Hc|Hc];
        [congruence|]. now apply re_match_complete in Hm.
  - split; [split|discriminate].
    + intros _. split; [exact Hne|].
      apply re_match_sound in Hm. destruct Hm as (s' & Hm). eauto.
    + reflexivity.
Qed.

Lemma X5_message_valid_iff_in_language_witness :
  MT10x.text (MT10x.__init__ (Some (L "test"))) = None /\
  MT10x.trailer (MT10x.__init__ (Some (L "test"))) = None.
Proof.
  destruct (proj2 (X5_message_valid_iff_in_language (Some (L "test"))))
    as (_ & _ & _ & Ht & Hr); [reflexivity|].
  split; assumption.
Defined.

(** X6: the application header of a parsed message comes in two kinds
    only.  Either block 2 is absent: the header is built from [None], is
    falsy, has no field set, and its string form fails ([TypeError]); or it
    is truthy, its string form is the payload of block 2, at least two
    characters long, and its input/output field is [I] or [O]. *)
Theorem X6_application_header_of_a_message
    (message : option str) (a : ApplicationHeader.t) :
  MT10x.application_header (MT10x.__init__ message) = Some a ->
  (ApplicationHeader.__bool__ a = false /\
   ApplicationHeader.__str__ a = None /\
   ApplicationHeader.input_output a = None /\
   ApplicationHeader.swift_message_type a = None /\
   ApplicationHeader.destination_address a = None /\
   ApplicationHeader.priority a = None /\
   ApplicationHeader.delivery_monitoring a = None /\
   ApplicationHeader.obsolescence_period a = None) \/
  (ApplicationHeader.__bool__ a = true /\
   (exists r, ApplicationHeader.__str__ a = Some r /\ 2 <= List.length r) /\
   (ApplicationHeader.input_output a = Some (L "I") \/
    ApplicationHeader.input_output a = Some (L "O"))).
Proof.
  intros Ha. destruct (message_cases message) as [[E _]|(mo & Hne & Hm & E)];
    rewrite E in Ha; cbn in Ha; [discriminate|].
  inversion Ha; subst a; clear Ha.
  apply re_match_sound in Hm. destruct Hm as (s' & Hm).
  apply message_inv in Hm.
  destruct Hm as (B1 & B2 & B3 & B4 & B5 & _ & _ & _ & P2 & _).
  destruct P2 as [[_ ->]|(io & rest & -> & _ & Hio & Hr & _)].
  - left. repeat split.
  - right. rewrite application_header_sliced by discriminate.
    cbn. split; [reflexivity|]. split.
    + eexists. split; [reflexivity|]. destruct rest; [congruence|simpl; lia].
    + destruct Hio as [-> | ->]; auto.
Qed.

Lemma X6_application_header_of_a_message_witness :
  exists a,
    MT10x.application_header (MT10x.__init__ (Some (L "{1:F01X}"))) = Some a /\
    ApplicationHeader.__bool__ a = false /\
    ApplicationHeader.__str__ a = None.
Proof.
  eexists. split; [vm_compute; reflexivity|].
  destruct (@X6_application_header_of_a_message (Some (L "{1:F01X}"))
              (ApplicationHeader.__init__ None))
    as [(Hb & Hs & _)|(Hb & _)].
  - vm_compute. reflexivity.
  - split; assumption.
  - discriminate Hb.
Defined.

(** ** The user header, decoded and encoded *)

Lemma fits_repeat p n w :
  fits (repeat p n) w = (List.length w =? n) && forallb p w.
Proof.
  revert w; induction n as [|n IH]; intros [|a w]; simpl; auto.
  rewrite IH. now destruct (p a), (List.length w =? n).
Qed.

Lemma times_chr_ok g p n s c s' c' :
  matches (Rep g n (Some n) (Chr p)) s c s' c' ->
  exists w, s = w ++ s' /\ (List.length w =? n) && forallb p w = true /\ c' = c.
Proof.
  intros H. apply times_chr_inv in H. destruct H as (w & -> & Hw & ->).
  exists w. rewrite <- fits_repeat. auto.
Qed.

Lemma upto_chr_ok g p hi s c s' c' :
  matches (Rep g 0 (Some hi) (Chr p)) s c s' c' ->
  exists w, s = w ++ s' /\ (List.length w <=? hi) && forallb p w = true /\
    c' = c.
Proof.
  intros H. apply rep_chr_inv in H. destruct H as (w & -> & Hw & _ & Hh & ->).
  exists w. rewrite Hw, andb_true_r. repeat split.
  apply Nat.leb_le. now apply Hh.
Qed.

(** One optional [{tag:...}] group without a name, as in the envelope. *)
Lemma plain_block_inv o x cl s c s' c' :
  matches (opt (Seq (Lit o) (Seq x (Seq (Lit cl) Eps)))) s c s' c' ->
  (s' = s /\ c' = c) \/
  exists w cx, s = o ++ w ++ cl ++ s' /\
    matches x (w ++ cl ++ s') c (cl ++ s') cx /\ c' = cx.
Proof.
  intros H. apply opt_inv in H. destruct H as [H|H]; [now left|right].
  apply seq_inv in H. destruct H as (s1 & c1 & H1 & H).
  apply seq_inv in H. destruct H as (s2 & c2 & H2 & H).
  apply seq_inv in H. destruct H as (s3 & c3 & H3 & H).
  apply eps_inv in H. destruct H as [-> ->].
  apply lit_inv in H1. destruct H1 as [-> ->].
  apply lit_inv in H3. destruct H3 as [-> ->].
  destruct (matches_suffix H2) as [w E]. rewrite E in H2.
  exists w, c2. rewrite E. auto.
Qed.

Lemma block_intro o n x cl w rest c cx :
  o <> [] ->
  matches x (w ++ cl ++ rest) c (cl ++ rest) cx ->
  matches (opt (Seq (Lit o) (Seq (Group n x) (Seq (Lit cl) Eps))))
    (o ++ w ++ cl ++ rest) c rest (bind n w cx).
Proof.
  intros Ho Hx. apply opt_take.
  - eapply M_seq; [apply M_lit|]. eapply M_seq; [|eapply M_seq;
      [apply M_lit|apply M_eps]].
    rewrite <- (firstn_consumed w (cl ++ rest)) at 2. now apply M_group.
  - rewrite !length_app. destruct o; [congruence|simpl; lia].
Qed.

Lemma user_header_inv (raw s' : str) (mo : caps) :
  matches UserHeader.REGEX raw [] s' mo ->
  at_end s' = true /\
  raw = render_user_header (group mo "bpc") (group mo "mur") (group mo "sti")
          (group mo "uetr") ++ s' /\
  opt_ok bpc_ok (group mo "bpc") = true /\
  opt_ok mur_ok (group mo "mur") = true /\
  opt_ok sti_ok (group mo "sti") = true /\
  opt_ok uetr_shape (group mo "uetr") = true.
Proof.
  intros H. unfold UserHeader.REGEX in H. cbn [seqs] in H.
  apply seq_inv in H. destruct H as (s1 & c1 & H1 & H).
  apply seq_inv in H. destruct H as (s2 & c2 & H2 & H).
  apply seq_inv in H. destruct H as (s3 & c3 & H3 & H).
  apply seq_inv in H. destruct H as (s4 & c4 & H4 & H).
  apply seq_inv in H. destruct H as (s5 & c5 & H5 & H).
  apply eps_inv in H. destruct H as [-> ->].
  apply eol_inv in H5. destruct H5 as (-> & -> & He).
  assert (E1 : group c4 "bpc" = group c1 "bpc").
  { rewrite (matches_other H4), (matches_other H3), (matches_other H2);
      auto; not_named. }
  assert (E2 : group c4 "mur" = group c2 "mur").
  { rewrite (matches_other H4), (matches_other H3); auto; not_named. }
  assert (E3 : group c4 "sti" = group c3 "sti").
  { rewrite (matches_other H4); auto; not_named. }
  assert (N2 : group c1 "mur" = None).
  { rewrite (matches_other H1); auto; not_named. }
  assert (N3 : group c2 "sti" = None).
  { rewrite (matches_other H2), (matches_other H1); auto; not_named. }
  assert (N4 : group c3 "uetr" = None).
  { rewrite (matches_other H3), (matches_other H2), (matches_other H1);
      auto; not_named. }
  rewrite E1, E2, E3. clear E1 E2 E3.
  assert (P1 : raw = group_text "{113:" (group c1 "bpc") ++ s1 /\
               opt_ok bpc_ok (group c1 "bpc") = true).
  { apply block_inv in H1. destruct H1 as [[-> ->]|(w & cx & -> & Hx & ->)].
    - split; reflexivity.
    - apply times_chr_ok in Hx. destruct Hx as (w' & E & Hw & ->).
      apply app_inv_tail in E. subst w'. rewrite group_bind. cbn.
      split; [now rewrite <- !app_assoc|exact Hw]. }
  assert (P2 : s1 = group_text "{108:" (group c2 "mur") ++ s2 /\
               opt_ok mur_ok (group c2 "mur") = true).
  { apply block_inv in H2. destruct H2 as [[-> ->]|(w & cx & -> & Hx & ->)].
    - rewrite N2. split; reflexivity.
    - apply upto_chr_ok in Hx. destruct Hx as (w' & E & Hw & ->).
      apply app_inv_tail in E. subst w'. rewrite group_bind. cbn.
      split; [now rewrite <- !app_assoc|exact Hw]. }
  assert (P3 : s2 = group_text "{111:" (group c3 "sti") ++ s3 /\
               opt_ok sti_ok (group c3 "sti") = true).
  { apply block_inv in H3. destruct H3 as [[-> ->]|(w & cx & -> & Hx & ->)].
    - rewrite N3. split; reflexivity.
    - apply times_chr_ok in Hx. destruct Hx as (w' & E & Hw & ->).
      apply app_inv_tail in E. subst w'. rewrite group_bind. cbn.
      split; [now rewrite <- !app_assoc|exact Hw]. }
  assert (P4 : s3 = group_text "{121:" (group c4 "uetr") ++ s4 /\
               opt_ok uetr_shape (group c4 "uetr") = true).
  { apply block_inv in H4. destruct H4 as [[-> ->]|(w & cx & -> & Hx & ->)].
    - rewrite N4. split; reflexivity.
    - destruct (shape_sound uetr_shape_of Hx) as (w' & E & Hw & ->).
      apply app_inv_tail in E. subst w'. rewrite group_bind. cbn.
      split; [now rewrite <- !app_assoc|exact Hw]. }
  destruct P1 as (-> & P1), P2 as (-> & P2), P3 as (-> & P3), P4 as (-> & P4).
  unfold render_user_header. rewrite <- !app_assoc. auto 10.
Qed.

Lemma user_header_cases (raw : str) :
  (UserHeader.__init__ raw = UserHeader.mk raw None None None None false /\
   (raw = [] \/ re_match UserHeader.REGEX raw = None)) \/
  (exists mo,
     raw <> [] /\ re_match UserHeader.REGEX raw = Some mo /\
     UserHeader.__init__ raw
     = UserHeader.mk raw (group mo "bpc") (group mo "mur") (group mo "sti")
         (group mo "uetr") true).
Proof.
  unfold UserHeader.__init__, UserHeader._populate_by_parsing.
  cbn [UserHeader.raw].
  destruct raw as [|x r]; cbn [truthy negb]; [left; auto|].
  destruct (re_match UserHeader.REGEX (x :: r)) as [mo|] eqn:Hm.
  - right. exists mo. repeat split. discriminate.
  - left. auto.
Qed.

(** X7: a valid user header is spelled by its own fields: its raw text is
    the groups [{113:bpc}{108:mur}{111:sti}{121:uetr}] of the fields that
    are set, in this order, with nothing between or around them but, at
    most, one final newline; and every field that is set has the shape of
    its group (four capitals; at most sixteen capitals or digits; three
    digits; the reference shape). *)
Theorem X7_valid_user_header_is_its_fields (raw : str) :
  UserHeader.__bool__ (UserHeader.__init__ raw) = true ->
  let h := UserHeader.__init__ raw in
  (raw = render_user_header (UserHeader.bpc h) (UserHeader.mur h)
           (UserHeader.sti h) (UserHeader.uetr h) \/
   raw = render_user_header (UserHeader.bpc h) (UserHeader.mur h)
           (UserHeader.sti h) (UserHeader.uetr h) ++ nl) /\
  opt_ok bpc_ok (UserHeader.bpc h) = true /\
  opt_ok mur_ok (UserHeader.mur h) = true /\
  opt_ok sti_ok (UserHeader.sti h) = true /\
  opt_ok uetr_shape (UserHeader.uetr h) = true.
Proof.
  intros Hv. cbv zeta.
  destruct (user_header_cases raw) as [[E _]|(mo & Hne & Hm & E)];
    rewrite E in *; [discriminate Hv|].
  cbn. apply re_match_sound in Hm. destruct Hm as (s' & Hm).
  apply user_header_inv in Hm. destruct Hm as (He & Er & Hok).
  split; [|exact Hok].
  apply at_end_inv in He. destruct He as [-> | ->].
  - left. now rewrite app_nil_r in Er.
  - right. exact Er.
Qed.

Lemma X7_valid_user_header_is_its_fields_witness :
  let raw := L "{113:SEPA}{111:001}" in
  let h := UserHeader.__init__ raw in
  (raw = render_user_header (UserHeader.bpc h) (UserHeader.mur h)
           (UserHeader.sti h) (UserHeader.uetr h) \/
   raw = render_user_header (UserHeader.bpc h) (UserHeader.mur h)
           (UserHeader.sti h) (UserHeader.uetr h) ++ nl) /\
  opt_ok bpc_ok (UserHeader.bpc h) = true /\
  opt_ok mur_ok (UserHeader.mur h) = true /\
  opt_ok sti_ok (UserHeader.sti h) = true /\
  opt_ok uetr_shape (UserHeader.uetr h) = true.
Proof.
  apply (@X7_valid_user_header_is_its_fields (L "{113:SEPA}{111:001}")).
  vm_compute. reflexivity.
Defined.

(** Building a match of the user-header pattern from well-shaped fields. *)
Lemma group_intro tg n x v rest c :
  L tg <> [] ->
  (forall w, v = Some w ->
     matches x (w ++ L "}" ++ rest) c (L "}" ++ rest) c) ->
  exists c',
    matches (opt (Seq (Lit (L tg)) (Seq (Group n x) (Seq (Lit (L "}")) Eps))))
      (group_text tg v ++ rest) c rest c'.
Proof.
  intros Ht Hx. destruct v as [w|]; simpl.
  - eexists. rewrite <- !app_assoc. apply block_intro; auto.
  - eexists. apply opt_skip.
Qed.

Lemma user_header_intro bpc mur sti uetr tail :
  opt_ok bpc_ok bpc = true -> opt_ok mur_ok mur = true ->
  opt_ok sti_ok sti = true -> opt_ok uetr_shape uetr = true ->
  at_end tail = true ->
  exists mo,
    matches UserHeader.REGEX (render_user_header bpc mur sti uetr ++ tail)
      [] tail mo.
Proof.
  intros Hb Hm Hs Hu He. unfold render_user_header, UserHeader.REGEX.
  cbn [seqs]. rewrite <- !app_assoc.
  edestruct (@group_intro "{113:" "bpc" (times 4 (Chr upper)) bpc) as (c1 & H1);
    [discriminate| |
  edestruct (@group_intro "{108:" "mur"
               (upto 0 16 (Chr (either upper digit))) mur) as (c2 & H2);
    [discriminate| |
  edestruct (@group_intro "{111:" "sti" (times 3 (Chr digit)) sti)
    as (c3 & H3);
    [discriminate| |
  edestruct (@group_intro "{121:" "uetr" UETR uetr) as (c4 & H4);
    [discriminate| |
  exists c4;
  eapply M_seq; [exact H1|]; eapply M_seq; [exact H2|];
  eapply M_seq; [exact H3|]; eapply M_seq; [exact H4|];
  eapply M_seq; [apply M_eol; exact He|apply M_eps]]]]].
  - intros w ->. simpl in Hb. apply times_chr_intro.
    now rewrite fits_repeat.
  - intros w ->. simpl in Hm. unfold mur_ok in Hm.
    apply andb_true_iff in Hm. destruct Hm as [Hl Hw].
    apply Nat.leb_le in Hl. apply rep_chr_intro; auto; [lia|].
    intros h Eh. inversion Eh; subst. exact Hl.
  - intros w ->. simpl in Hs. apply times_chr_intro.
    now rewrite fits_repeat.
  - intros w ->. simpl in Hu.
    apply (@shape_complete UETR _ w _ _ uetr_shape_of Hu).
Qed.

(** The rendering determines the fields. *)
Lemma excludes_close (p : ascii -> bool) (w : str) :
  p "}"%char = false -> forallb p w = true -> forallb no_close w = true.
Proof.
  intros Hp. induction w as [|a w IH]; simpl; [reflexivity|].
  intros H. apply andb_true_iff in H. destruct H as [Ha Hw].
  rewrite (IH Hw), andb_true_r. unfold no_close, nott, is_char.
  destruct (Ascii.eqb "}" a) eqn:E; [|reflexivity].
  apply Ascii.eqb_eq in E. subst a. congruence.
Qed.

Lemma fits_excludes_close (ps : list (ascii -> bool)) :
  forallb (fun p => negb (p "}"%char)) ps = true ->
  forall w, fits ps w = true -> forallb no_close w = true.
Proof.
  induction ps as [|p ps IH]; intros Hps [|a w] H; simpl in *;
    try discriminate; auto.
  apply andb_true_iff in Hps. destruct Hps as [Hp Hps].
  apply andb_true_iff in H. destruct H as [Ha Hw].
  rewrite (IH Hps _ Hw), andb_true_r.
  apply negb_true_iff in Hp.
  assert (H1 : forallb p [a] = true) by (simpl; now rewrite Ha).
  apply (excludes_close _ _ Hp) in H1. simpl in H1.
  now rewrite andb_true_r in H1.
Qed.

Lemma split_at_close (w w' R R' : str) :
  forallb no_close w = true -> forallb no_close w' = true ->
  w ++ L "}" ++ R = w' ++ L "}" ++ R' -> w = w' /\ R = R'.
Proof.
  revert w'; induction w as [|a w IH]; intros [|a' w'] Hw Hw' E;
    simpl in *.
  - inversion E. auto.
  - inversion E; subst a'. apply andb_true_iff in Hw'.
    destruct Hw' as [Hc _]. discriminate Hc.
  - inversion E; subst a. apply andb_true_iff in Hw.
    destruct Hw as [Hc _]. discriminate Hc.
  - inversion E; subst a'.
    apply andb_true_iff in Hw, Hw'. destruct Hw as [_ Hw], Hw' as [_ Hw'].
    destruct (IH _ Hw Hw' H1) as [-> ->]. auto.
Qed.

Lemma group_text_inj tg (v v' : option str) (R R' : str) :
  opt_ok (forallb no_close) v = true -> opt_ok (forallb no_close) v' = true ->
  strip_prefix (L tg) R = None -> strip_prefix (L tg) R' = None ->
  group_text tg v ++ R = group_text tg v' ++ R' -> v = v' /\ R = R'.
Proof.
  intros Hv Hv' HR HR' E. destruct v as [w|], v' as [w'|]; simpl in *.
  - rewrite <- !app_assoc in E. apply app_inv_head in E.
    destruct (split_at_close _ _ _ _ Hv Hv' E) as [-> ->]. auto.
  - rewrite <- E, <- app_assoc, strip_prefix_app in HR'. discriminate.
  - rewrite E, <- app_assoc, strip_prefix_app in HR. discriminate.
  - auto.
Qed.

Lemma ok_no_close bpc mur sti uetr :
  opt_ok bpc_ok bpc = true -> opt_ok mur_ok mur = true ->
  opt_ok sti_ok sti = true -> opt_ok uetr_shape uetr = true ->
  opt_ok (forallb no_close) bpc = true /\
  opt_ok (forallb no_close) mur = true /\
  opt_ok (forallb no_close) sti = true /\
  opt_ok (forallb no_close) uetr = true.
Proof.
  intros Hb Hm Hs Hu. repeat split.
  - destruct bpc as [w|]; [|reflexivity]. simpl in *.
    apply andb_true_iff in Hb. destruct Hb as [_ Hb].
    now apply (excludes_close upper).
  - destruct mur as [w|]; [|reflexivity]. simpl in *.
    apply andb_true_iff in Hm. destruct Hm as [_ Hm].
    now apply (excludes_close (either upper digit)).
  - destruct sti as [w|]; [|reflexivity]. simpl in *.
    apply andb_true_iff in Hs. destruct Hs as [_ Hs].
    now apply (excludes_close digit).
  - destruct uetr as [w|]; [|reflexivity]. simpl in *.
    now apply (fits_excludes_close UETR_SHAPE).
Qed.

Lemma render_inj b m s u b' m' s' u' tail :
  opt_ok bpc_ok b = true -> opt_ok mur_ok m = true ->
  opt_ok sti_ok s = true -> opt_ok uetr_shape u = true ->
  opt_ok bpc_ok b' = true -> opt_ok mur_ok m' = true ->
  opt_ok sti_ok s' = true -> opt_ok uetr_shape u' = true ->
  at_end tail = true ->
  render_user_header b m s u = render_user_header b' m' s' u' ++ tail ->
  b = b' /\ m = m' /\ s = s' /\ u = u'.
Proof.
  intros Hb Hm Hs Hu Hb' Hm' Hs' Hu' Ht E.
  destruct (ok_no_close _ _ _ _ Hb Hm Hs Hu) as (Nb & Nm & Ns & Nu).
  destruct (ok_no_close _ _ _ _ Hb' Hm' Hs' Hu') as (Nb' & Nm' & Ns' & Nu').
  apply at_end_inv in Ht.
  unfold render_user_header in E. rewrite <- !app_assoc in E.
  rewrite <- (app_nil_r (group_text "{121:" u)) in E.
  apply group_text_inj in E; auto;
    [|destruct m, s, u; reflexivity
     |destruct m', s', u', Ht as [-> | ->]; reflexivity].
  destruct E as [-> E].
  apply group_text_inj in E; auto;
    [|destruct s, u; reflexivity
     |destruct s', u', Ht as [-> | ->]; reflexivity].
  destruct E as [-> E].
  apply group_text_inj in E; auto;
    [|destruct u; reflexivity
     |destruct u', Ht as [-> | ->]; reflexivity].
  destruct E as [-> E].
  apply group_text_inj in E; auto;
    [|destruct Ht as [-> | ->]; reflexivity].
  destruct E as [-> _]. auto.
Qed.

Lemma user_header_of_fields (bpc mur sti uetr : option str) :
  opt_ok bpc_ok bpc = true -> opt_ok mur_ok mur = true ->
  opt_ok sti_ok sti = true -> opt_ok uetr_shape uetr = true ->
  render_user_header bpc mur sti uetr <> [] ->
  UserHeader.__init__ (render_user_header bpc mur sti uetr)
  = UserHeader.mk (render_user_header bpc mur sti uetr) bpc mur sti uetr true.
Proof.
  intros Hb Hm Hs Hu Hne.
  destruct (@user_header_intro bpc mur sti uetr [] Hb Hm Hs Hu eq_refl)
    as (mo0 & H0).
  rewrite app_nil_r in H0. apply re_match_complete in H0.
  destruct (user_header_cases (render_user_header bpc mur sti uetr))
    as [[_ [E|E]]|(mo & _ & Hmo & E)]; [congruence|congruence|].
  rewrite E. apply re_match_sound in Hmo. destruct Hmo as (s' & Hmo).
  apply user_header_inv in Hmo.
  destruct Hmo as (He & Er & Hb' & Hm' & Hs' & Hu').
  destruct (render_inj _ _ _ _ _ _ _ _ _ Hb Hm Hs Hu Hb' Hm' Hs' Hu' He Er)
    as (<- & <- & <- & <-).
  reflexivity.
Qed.

(** X8: encoding then decoding.  For any four optional values of the right
    shapes, not all absent, the text [{113:bpc}{108:mur}{111:sti}{121:uetr}]
    of those present parses to a valid user header that holds exactly
    these values, absent ones unset. *)
Theorem X8_user_header_round_trip (bpc mur sti uetr : option str) :
  opt_ok bpc_ok bpc = true -> opt_ok mur_ok mur = true ->
  opt_ok sti_ok sti = true -> opt_ok uetr_shape uetr = true ->
  render_user_header bpc mur sti uetr <> [] ->
  UserHeader.__init__ (render_user_header bpc mur sti uetr)
  = UserHeader.mk (render_user_header bpc mur sti uetr) bpc mur sti uetr true.
Proof. exact (@user_header_of_fields bpc mur sti uetr). Qed.

Lemma X8_user_header_round_trip_witness :
  UserHeader.__init__ (L "{113:SEPA}{108:MT103}")
  = UserHeader.mk (L "{113:SEPA}{108:MT103}") (Some (L "SEPA"))
      (Some (L "MT103")) None None true.
Proof.
  apply (@X8_user_header_round_trip (Some (L "SEPA")) (Some (L "MT103"))
           None None); try reflexivity.
  vm_compute. discriminate.
Defined.

(** ** The user header of a message *)

Lemma envelope_user_header_inv s c s' c' :
  matches MT10x.USER_HEADER s c s' c' ->
  exists b m st u,
    s = render_user_header b m st u ++ s' /\
    opt_ok bpc_ok b = true /\ opt_ok mur_blank_ok m = true /\
    opt_ok sti_ok st = true /\ opt_ok uetr_shape u = true.
Proof.
  intros H. unfold MT10x.USER_HEADER in H. cbn [seqs] in H.
  apply seq_inv in H. destruct H as (s1 & c1 & H1 & H).
  apply seq_inv in H. destruct H as (s2 & c2 & H2 & H).
  apply seq_inv in H. destruct H as (s3 & c3 & H3 & H).
  apply seq_inv in H. destruct H as (s4 & c4 & H4 & H).
  apply eps_inv in H. destruct H as [-> ->].
  assert (P1 : exists b, s = group_text "{113:" b ++ s1 /\
                         opt_ok bpc_ok b = true).
  { apply plain_block_inv in H1.
    destruct H1 as [[-> ->]|(w & cx & -> & Hx & ->)].
    - now exists None.
    - apply times_chr_ok in Hx. destruct Hx as (w' & E & Hw & _).
      apply app_inv_tail in E. subst w'. exists (Some w).
      split; [simpl; now rewrite <- !app_assoc|exact Hw]. }
  assert (P2 : exists m, s1 = group_text "{108:" m ++ s2 /\
                         opt_ok mur_blank_ok m = true).
  { apply plain_block_inv in H2.
    destruct H2 as [[-> ->]|(w & cx & -> & Hx & ->)].
    - now exists None.
    - apply upto_chr_ok in Hx. destruct Hx as (w' & E & Hw & _).
      apply app_inv_tail in E. subst w'. exists (Some w).
      split; [simpl; now rewrite <- !app_assoc|exact Hw]. }
  assert (P3 : exists st, s2 = group_text "{111:" st ++ s3 /\
                          opt_ok sti_ok st = true).
  { apply plain_block_inv in H3.
    destruct H3 as [[-> ->]|(w & cx & -> & Hx & ->)].
    - now exists None.
    - apply times_chr_ok in Hx. destruct Hx as (w' & E & Hw & _).
      apply app_inv_tail in E. subst w'. exists (Some w).
      split; [simpl; now rewrite <- !app_assoc|exact Hw]. }
  assert (P4 : exists u, s3 = group_text "{121:" u ++ s4 /\
                         opt_ok uetr_shape u = true).
  { apply plain_block_inv in H4.
    destruct H4 as [[-> ->]|(w & cx & -> & Hx & ->)].
    - now exists None.
    - destruct (shape_sound uetr_shape_of Hx) as (w' & E & Hw & _).
      apply app_inv_tail in E. subst w'. exists (Some w).
      split; [simpl; now rewrite <- !app_assoc|exact Hw]. }
  destruct P1 as (b & -> & P1), P2 as (m & -> & P2), P3 as (st & -> & P3),
    P4 as (u & -> & P4).
  exists b, m, st, u. unfold render_user_header. rewrite <- !app_assoc. auto.
Qed.

Lemma unblank_class (a : ascii) :
  a <> " "%char ->
  either upper (either (is_char " ") digit) a = true ->
  either upper digit a = true.
Proof.
  unfold either, is_char. intros Hn H.
  destruct (upper a); [reflexivity|]. cbn [orb] in *.
  destruct (Ascii.eqb " " a) eqn:E; [|exact H].
  apply Ascii.eqb_eq in E. congruence.
Qed.

Lemma unblank_mur (w : str) :
  ~ In " "%char w -> mur_blank_ok w = true -> mur_ok w = true.
Proof.
  unfold mur_blank_ok, mur_ok. intros Hn H.
  apply andb_true_iff in H. destruct H as [-> H]. cbn [andb].
  induction w as [|a w IH]; [reflexivity|].
  cbn [forallb] in *. apply andb_true_iff in H. destruct H as [Ha Hw].
  rewrite IH; [|intros Hin; apply Hn; now right|exact Hw].
  rewrite andb_true_r. apply unblank_class; [|exact Ha].
  intros ->. apply Hn. now left.
Qed.

(** X9: the one way a valid message gets an invalid user header.  If the
    user header of a message has a nonempty text without a blank in it,
    then it is valid; so an invalid, nonempty user header inside a valid
    message always has a blank in its message user reference, which the
    envelope pattern admits and the user-header pattern does not. *)
Theorem X9_user_header_invalid_only_by_blank
    (message : option str) (u : UserHeader.t) :
  MT10x.user_header (MT10x.__init__ message) = Some u ->
  UserHeader.raw u <> [] ->
  ~ In " "%char (UserHeader.raw u) ->
  UserHeader.__bool__ u = true.
Proof.
  intros Hu Hne Hblank.
  destruct (message_cases message) as [[E _]|(mo & _ & Hm & E)];
    rewrite E in Hu; cbn in Hu; [discriminate|].
  inversion Hu; subst u; clear Hu.
  rewrite user_header_keeps_raw in Hne, Hblank.
  apply re_match_sound in Hm. destruct Hm as (s' & Hm).
  apply message_inv in Hm.
  destruct Hm as (B1 & B2 & B3 & B4 & B5 & _ & _ & _ & _ & P3 & _).
  destruct P3 as [[_ E3]|(w & E3 & _ & rest & c & c' & Hw)];
    rewrite E3 in *; [now elim Hne|].
  rewrite or_empty_some in *.
  apply envelope_user_header_inv in Hw.
  destruct Hw as (b & m & st & ue & Ew & Hb & Hm & Hs & Hue).
  apply app_inv_tail in Ew. subst w.
  assert (Hm' : opt_ok mur_ok m = true).
  { destruct m as [w|]; [|reflexivity]. simpl in *.
    apply unblank_mur; [|exact Hm]. intros Hin. apply Hblank.
    unfold render_user_header.
    apply in_or_app. right. apply in_or_app. left.
    unfold group_text.
    apply in_or_app. right. apply in_or_app. now left. }
  rewrite (user_header_of_fields b m st ue Hb Hm' Hs Hue Hne). reflexivity.
Qed.

Lemma X9_user_header_invalid_only_by_blank_witness :
  exists u,
    MT10x.user_header (MT10x.__init__ (Some (L "{3:{113:SEPA}{108:REF1}}")))
    = Some u /\
    UserHeader.__bool__ u = true.
Proof.
  eexists. split; [vm_compute; reflexivity|].
  apply (@X9_user_header_invalid_only_by_blank
           (Some (L "{3:{113:SEPA}{108:REF1}}"))).
  - vm_compute. reflexivity.
  - vm_compute. discriminate.
  - vm_compute. intuition discriminate.
Defined.

(** * Further properties of the text block *)

(** ** The attributes of a text block *)

Lemma keep_hasattr self kv k :
  Text.hasattr (Text.keep self kv) k = Text.hasattr self k.
Proof.
  unfold Text.keep. destruct (snd kv); auto.
  destruct (String.prefix "date_" (fst kv)); auto.
  destruct (Text.hasattr self (fst kv)) eqn:Hh; auto. cbn [negb].
  unfold Text.hasattr, Text.setattr. cbn [Text.dict existsb fst].
  destruct (String.eqb k (fst kv)) eqn:E; [|reflexivity].
  apply String.eqb_eq in E. subst k. symmetry. exact Hh.
Qed.

Lemma keep_getattr_absent self kv k :
  Text.hasattr self k = false ->
  Text.getattr (Text.keep self kv) k = Text.getattr self k.
Proof.
  intros Hk. unfold Text.keep. destruct (snd kv); auto.
  destruct (String.prefix "date_" (fst kv)); auto.
  destruct (Text.hasattr self (fst kv)) eqn:Hh; auto. cbn [negb].
  rewrite getattr_setattr.
  destruct (String.eqb k (fst kv)) eqn:E; [|reflexivity].
  apply String.eqb_eq in E. subst k. congruence.
Qed.

Lemma fold_keep_attrs gd : forall self k,
  Text.hasattr (fold_left Text.keep gd self) k = Text.hasattr self k /\
  (Text.hasattr self k = false ->
   Text.getattr (fold_left Text.keep gd self) k = Text.getattr self k).
Proof.
  induction gd as [|kv gd IH]; intros self k; simpl; [auto|].
  destruct (IH (Text.keep self kv) k) as [H1 H2].
  rewrite H1, keep_hasattr. split; [reflexivity|].
  intros Hk. rewrite H2 by (now rewrite keep_hasattr).
  now apply keep_getattr_absent.
Qed.

Lemma hasattr_init raw d b k :
  Text.hasattr (Text.mk raw (map (fun k => (k, None)) Text.ATTRS) d b) k
  = existsb (String.eqb k) Text.ATTRS.
Proof.
  unfold Text.hasattr. cbn [Text.dict].
  induction Text.ATTRS as [|a l IH]; simpl; [reflexivity|]. now rewrite IH.
Qed.

(** X10: parsing never adds an attribute to a text block and never removes
    one: whatever the input, the block has exactly the 23 string
    attributes its constructor creates.  What the pattern captures under
    another name (the parts of the time indication, the three date groups)
    is not stored. *)
Theorem X10_text_attributes_are_fixed (raw : str) (k : string) :
  (Text.hasattr (Text.__init__ raw) k = true <-> In k Text.ATTRS) /\
  (~ In k Text.ATTRS -> Text.getattr (Text.__init__ raw) k = None).
Proof.
  assert (Hh : Text.hasattr (Text.__init__ raw) k
               = existsb (String.eqb k) Text.ATTRS).
  { unfold Text.__init__, Text._populate_by_parsing.
    cbn [Text.raw Text.dict Text.date Text._boolean].
    destruct (negb (truthy raw)); [apply hasattr_init|].
    destruct (re_match Text.REGEX raw) as [mo|]; [|apply hasattr_init].
    unfold Text.hasattr at 1. cbn [Text.dict].
    match goal with |- context [fold_left Text.keep ?gd ?s] =>
      change (Text.hasattr (fold_left Text.keep gd s) k
              = existsb (String.eqb k) Text.ATTRS);
      rewrite (proj1 (fold_keep_attrs gd s k)) end.
    apply hasattr_init. }
  assert (Hin : existsb (String.eqb k) Text.ATTRS = true <-> In k Text.ATTRS).
  { rewrite existsb_exists. split.
    - intros (x & Hx & E). apply String.eqb_eq in E. now subst x.
    - intros H. exists k. split; [exact H|apply String.eqb_refl]. }
  split; [now rewrite Hh|].
  intros Hn.
  destruct (truthy raw) eqn:Ht;
    [destruct (re_match Text.REGEX raw) as [mo|] eqn:Hm|];
    try (destruct (@text_unmatched raw) as (_ & _ & _ & H); now auto).
  unfold Text.__init__, Text._populate_by_parsing.
  cbn [Text.raw Text.dict Text.date Text._boolean]. rewrite Ht, Hm.
  cbn [negb]. unfold Text.getattr at 1. cbn [Text.dict].
  match goal with |- context [fold_left Text.keep ?gd ?s] =>
    change (Text.getattr (fold_left Text.keep gd s) k = None);
    rewrite (proj2 (fold_keep_attrs gd s k)) end.
  - apply getattr_init.
  - rewrite hasattr_init. destruct (existsb (String.eqb k) Text.ATTRS) eqn:E;
      [|reflexivity]. exfalso. apply Hn, Hin. reflexivity.
Qed.

Lemma X10_text_attributes_are_fixed_witness :
  Text.getattr
    (Text.__init__ (L ":13C:/CLSTIME/0915+0100:32A:180117CAD5432,1"))
    "time_indication_class" = None /\
  Text._boolean
    (Text.__init__ (L ":13C:/CLSTIME/0915+0100:32A:180117CAD5432,1")) = true.
Proof.
  split; [|vm_compute; reflexivity].
  apply (proj2 (X10_text_attributes_are_fixed
                  (L ":13C:/CLSTIME/0915+0100:32A:180117CAD5432,1")
                  "time_indication_class")).
  vm_compute. intuition discriminate.
Defined.

(** ** The shapes of the values *)

Section Valued.

Variable P : string -> str -> Prop.

Lemma valued_groupless r : names r = [] -> valued P r.
Proof.
  intros E s c s' c' H k v Hk. left. now rewrite <- (matches_groupless H E).
Qed.

Lemma valued_seq r1 r2 : valued P r1 -> valued P r2 -> valued P (Seq r1 r2).
Proof.
  intros V1 V2 s c s' c' H k v Hk.
  apply seq_inv in H. destruct H as (s1 & c1 & H1 & H2).
  destruct (V2 _ _ _ _ H2 _ _ Hk) as [Hk1|Hp]; [|now right].
  eapply V1; eauto.
Qed.

Lemma valued_alt r1 r2 : valued P r1 -> valued P r2 -> valued P (Alt r1 r2).
Proof.
  intros V1 V2 s c s' c' H k v Hk.
  apply alt_inv in H. destruct H; [eapply V1|eapply V2]; eauto.
Qed.

Lemma valued_rep g lo hi r : valued P r -> valued P (Rep g lo hi r).
Proof.
  intros V1 s c s' c' H.
  remember (Rep g lo hi r) as R eqn:ER. revert lo hi ER.
  induction H as
    [| | | | | |g' hi' r' s c|g' lo' hi' r' s c s1 c1 s2 c2 Ho H1 _ Hl H2 IH2
    | | | ]; intros lo0 hi0 ER; try discriminate.
  - auto.
  - inversion ER; subst. intros k v Hk.
    destruct (IH2 _ _ eq_refl _ _ Hk) as [Hk1|Hp]; [|now right].
    eapply V1; eauto.
Qed.

Lemma valued_group n x :
  names x = [] ->
  (forall w s' c c', matches x (w ++ s') c s' c' -> P n w) ->
  valued P (Group n x).
Proof.
  intros Ex Hx s c s' c' H k v Hk.
  apply group_inv in H. destruct H as (c1 & H & ->).
  rewrite group_bind in Hk. destruct (String.eqb k n) eqn:E.
  - apply String.eqb_eq in E. subst k. inversion Hk; subst v. right.
    destruct (matches_suffix H) as [w ->]. rewrite firstn_consumed.
    eapply Hx; eauto.
  - left. now rewrite <- (matches_groupless H Ex).
Qed.

End Valued.

Lemma run_value n g p lo hi :
  value_shape n = Some (p, (lo, hi)) ->
  valued text_value (Group n (Rep g lo hi (Chr p))).
Proof.
  intros E. apply valued_group; [reflexivity|].
  intros w s' c c' H. apply rep_chr_inv in H.
  destruct H as (w' & Ew & Hw & Hlo & Hhi & _).
  apply app_inv_tail in Ew. subst w'.
  unfold text_value, value_ok. rewrite E. unfold has_shape. cbn [fst snd].
  rewrite Hw. apply Nat.leb_le in Hlo. rewrite Hlo. cbn [andb].
  destruct hi as [h|]; [|reflexivity]. apply Nat.leb_le. now apply Hhi.
Qed.

Lemma pair_value n p :
  value_shape n = Some (p, (2, Some 2)) ->
  valued text_value (Group n (Seq (Chr p) (Chr p))).
Proof.
  intros E. apply valued_group; [reflexivity|].
  intros w s' c c' H.
  apply seq_inv in H. destruct H as (s1 & c1 & H1 & H2).
  apply chr_inv in H1, H2.
  destruct H1 as (a & Ea & Ha & _), H2 as (b & -> & Hb & _).
  change (a :: b :: s') with ([a; b] ++ s') in Ea.
  apply app_inv_tail in Ea. subst w.
  unfold text_value, value_ok. rewrite E. unfold has_shape. cbn.
  now rewrite Ha, Hb.
Qed.

Lemma one_value n p :
  value_shape n = Some (p, (1, Some 1)) ->
  valued text_value (Group n (Chr p)).
Proof.
  intros E. apply valued_group; [reflexivity|].
  intros w s' c c' H. apply chr_inv in H. destruct H as (a & Ea & Ha & _).
  change (a :: s') with ([a] ++ s') in Ea.
  apply app_inv_tail in Ea. subst w.
  unfold text_value, value_ok. rewrite E. unfold has_shape. cbn.
  now rewrite Ha.
Qed.

Lemma free_value n x :
  value_shape n = None -> names x = [] -> valued text_value (Group n x).
Proof.
  intros E Ex. apply valued_group; [exact Ex|].
  intros w s' c c' _. unfold text_value, value_ok. now rewrite E.
Qed.

Ltac valued_ok :=
  repeat first
    [ apply valued_groupless; reflexivity
    | apply run_value; reflexivity
    | apply pair_value; reflexivity
    | apply one_value; reflexivity
    | apply free_value; reflexivity
    | apply valued_seq
    | apply valued_rep ].

Lemma text_valued : valued text_value Text.REGEX.
Proof.
  unfold Text.REGEX, Text.ITEMS, Text.item, Text.free_text, Text.tag_opt,
    Text.tag, opt, star, star_lazy, plus, times.
  cbn [seqs app]. valued_ok.
Qed.

(** X11: on every valid body the values have the shape of their group:
    the sender's reference and the bank operation code are nonempty and
    hold no white space and no colon; both currencies are three capital
    letters; both amounts are nonempty runs of digits and commas; the
    instruction code, transaction type code, exchange rate, sending
    institution and both charges hold no colon; the sender's correspondent
    holds no white space and no colon. *)
Theorem X11_text_values_have_their_shape (raw : str) (k : string) (v : str) :
  In k Text.ATTRS ->
  Text._boolean (Text.__init__ raw) = true ->
  Text.getattr (Text.__init__ raw) k = Some v ->
  value_ok k v = true.
Proof.
  intros Hk Hv Hg. apply text_valid in Hv. destruct Hv as (mo & Hm & Ht).
  destruct (text_matched _ Ht Hm) as (_ & _ & _ & Hgr).
  rewrite (Hgr _ Hk) in Hg. apply re_match_sound in Hm.
  destruct Hm as (s' & Hm).
  destruct (text_valued Hm _ Hg) as [Hn|Hp]; [discriminate Hn|exact Hp].
Qed.

Lemma X11_text_values_have_their_shape_witness :
  value_ok "interbank_settled_currency" (L "CAD") = true.
Proof.
  apply (@X11_text_values_have_their_shape
           (L ":20:REF1 :32A:180117CAD5432,1") "interbank_settled_currency").
  - vm_compute. tauto.
  - vm_compute. reflexivity.
  - vm_compute. reflexivity.
Defined.

(** ** The derived date *)

Lemma digit_val_range (a : ascii) :
  digit a = true -> (0 <= digit_val a <= 9)%Z.
Proof.
  unfold digit, between, digit_val. intros H.
  apply andb_true_iff in H. destruct H as [H1 H2].
  apply N.leb_le in H1, H2. lia.
Qed.

Lemma py_int_two_digits (v : str) :
  has_shape (digit, (2, Some 2)) v = true ->
  exists y, py_int v = Some y /\ (0 <= y <= 99)%Z.
Proof.
  unfold has_shape. cbn [fst snd]. intros H.
  apply andb_true_iff in H. destruct H as [H H3].
  apply andb_true_iff in H. destruct H as [Hd H2].
  apply Nat.leb_le in H2, H3.
  destruct v as [|a [|b [|x v]]]; simpl in H2, H3; try lia.
  unfold py_int. cbn [truthy andb]. rewrite Hd.
  cbn [forallb] in Hd. apply andb_true_iff in Hd. destruct Hd as [Ha Hb].
  apply andb_true_iff in Hb. destruct Hb as [Hb _].
  apply digit_val_range in Ha, Hb.
  eexists. split; [reflexivity|]. cbn [fold_left]. lia.
Qed.

(** The groups of [:32A:] are bound together or not at all. *)
Lemma settlement_together (raw s' : str) (mo : caps) :
  matches Text.REGEX raw [] s' mo ->
  group mo "date_year" <> None ->
  group mo "interbank_settled_currency" <> None /\
  group mo "interbank_settled_amount" <> None.
Proof.
  intros H. unfold Text.REGEX, Text.ITEMS in H. cbn [seqs] in H.
  apply seq_inv in H. destruct H as (s1 & c1 & H1 & H).
  apply seq_inv in H. destruct H as (s2 & c2 & H2 & H).
  apply seq_inv in H. destruct H as (s3 & c3 & H3 & H).
  apply seq_inv in H. destruct H as (s4 & c4 & H4 & H).
  apply seq_inv in H. destruct H as (s5 & c5 & H5 & H).
  apply seq_inv in H. destruct H as (s6 & c6 & H6 & HR).
  rewrite !(matches_other HR) by not_named.
  assert (N : group c5 "date_year" = None).
  { rewrite (matches_other H5), (matches_other H4), (matches_other H3),
      (matches_other H2), (matches_other H1); auto; not_named. }
  clear H1 H2 H3 H4 H5 HR.
  apply opt_inv in H6. destruct H6 as [[_ ->]|H6]; [congruence|].
  intros _. unfold Text.item, Text.tag in H6. cbn [seqs] in H6.
  apply seq_inv in H6. destruct H6 as (t0 & d0 & _ & H).
  apply seq_inv in H. destruct H as (t1 & d1 & _ & H).
  apply seq_inv in H. destruct H as (t2 & d2 & _ & H).
  apply seq_inv in H. destruct H as (t3 & d3 & _ & H).
  apply seq_inv in H. destruct H as (t4 & d4 & G4 & H).
  apply seq_inv in H. destruct H as (t5 & d5 & G5 & H).
  apply seq_inv in H. destruct H as (t6 & d6 & G6 & H).
  apply eps_inv in H. destruct H as [_ ->].
  apply rep_chr_inv in G6. destruct G6 as (_ & _ & _ & _ & _ & ->).
  apply group_inv in G5. destruct G5 as (dx & G5 & ->).
  apply group_inv in G4. destruct G4 as (dy & G4 & ->).
  rewrite !group_bind. cbn [String.eqb Ascii.eqb Bool.eqb].
  split; [|discriminate].
  rewrite (matches_groupless G5) by reflexivity.
  rewrite group_bind, String.eqb_refl. discriminate.
Qed.

(** X12: a text block has a date only as part of a complete settlement:
    whenever the date is set, the block is valid, the settlement currency
    and amount are set too, and the date is a real calendar day of the
    years 2000 to 2099. *)
Theorem X12_date_comes_with_settlement (raw : str) (d : datetime.date) :
  Text.date (Text.__init__ raw) = Some d ->
  Text._boolean (Text.__init__ raw) = true /\
  (2000 <= datetime.year d <= 2099)%Z /\
  real_date (datetime.year d) (datetime.month d) (datetime.day d) = true /\
  Text.interbank_settled_currency (Text.__init__ raw) <> None /\
  Text.interbank_settled_amount (Text.__init__ raw) <> None.
Proof.
  intros Hd.
  destruct (truthy raw) eqn:Ht;
    [destruct (re_match Text.REGEX raw) as [mo|] eqn:Hm|];
    try (destruct (@text_unmatched raw) as (_ & _ & E & _);
         [now auto|congruence]).
  destruct (text_matched _ Ht Hm) as (Hb & _ & Ed & Hg).
  rewrite Ed in Hd. apply re_match_sound in Hm. destruct Hm as (s' & Hm).
  unfold Text.derive_date in Hd.
  destruct (group mo "date_year") as [yy|] eqn:Gy; [|discriminate].
  destruct (group mo "date_month") as [mm|]; [|discriminate].
  destruct (group mo "date_day") as [dd|]; [|discriminate].
  destruct (text_valued Hm _ Gy) as [Hn|Hy]; [discriminate Hn|].
  apply py_int_two_digits in Hy. destruct Hy as (y & Ey & Hy).
  rewrite Ey in Hd.
  destruct (py_int mm) as [mth|]; [|discriminate].
  destruct (py_int dd) as [dy|]; [|discriminate].
  rewrite date_new_real in Hd.
  destruct (real_date (2000 + y) mth dy) eqn:Hr; [|discriminate].
  assert (Ed' : d = datetime.Date (2000 + y) mth dy) by congruence.
  subst d. clear Hd. cbn [datetime.year datetime.month datetime.day].
  destruct (@settlement_together raw s' mo Hm) as [Hc Ha]; [congruence|].
  unfold Text.interbank_settled_currency, Text.interbank_settled_amount.
  rewrite !Hg by (vm_compute; tauto).
  split; [exact Hb|]. split; [lia|]. split; [exact Hr|]. split; assumption.
Qed.

Lemma X12_date_comes_with_settlement_witness :
  (2000 <= 2018 <= 2099)%Z /\
  Text.interbank_settled_amount (Text.__init__ (L ":32A:180117CAD5432,1"))
  <> None.
Proof.
  destruct (@X12_date_comes_with_settlement (L ":32A:180117CAD5432,1")
              (datetime.Date 2018 1 17)) as (_ & Hy & _ & _ & Ha).
  - vm_compute. reflexivity.
  - split; [exact Hy|exact Ha].
Defined.

(** ** Free text ends without white space *)

(** Whether the rest of a pattern succeeds never depends on the bindings:
    the patterns have no back-reference. *)
Lemma caps_blind_m r k : caps_blind k -> caps_blind (m r k).
Proof.
  intros Hk s c c' H.
  destruct (m r k s c) as [res|] eqn:E; [clear H|congruence].
  apply m_sound in E. destruct E as (s1 & c1 & Hm & E).
  apply (m_complete Hm). intros c''. apply (Hk s1 c1). congruence.
Qed.

Lemma keeps_good_other n r k :
  ~ In n (names r) -> keeps_good n k -> keeps_good n (m r k).
Proof.
  intros Hn Hk s c res Hc H.
  apply m_sound in H. destruct H as (s1 & c1 & Hm & H).
  apply (Hk s1 c1); [|exact H].
  intros v Hv. apply Hc. now rewrite <- (matches_other Hm _ Hn).
Qed.

(** A lazy run of any characters stops at the first place where the rest
    succeeds: one character earlier the rest had failed. *)
Lemma lazy_any_first (kg : K) : forall fuel s c res,
  rep_loop (m (Chr any)) Lazy kg fuel 0 None s c = Some res ->
  exists w p, s = w ++ p /\ kg p c = Some res /\
    forall w0 a, w = w0 ++ [a] -> kg (a :: p) c = None.
Proof.
  induction fuel as [|fuel IH]; intros s c res H; [discriminate|].
  cbn [rep_loop] in H. apply or_else_some in H.
  destruct H as [H|[Hstop H]].
  - exists [], s. repeat split; auto.
    intros w0 a E. destruct w0; discriminate E.
  - cbn [hi_open m] in H. destruct s as [|a s1]; [discriminate|].
    cbn [any] in H.
    assert (Hl : (List.length s1 <? List.length (a :: s1)) = true)
      by (apply Nat.ltb_lt; simpl; lia).
    rewrite Hl in H. cbn [pred dec_hi option_map] in H.
    apply IH in H. destruct H as (w1 & p & -> & Hp & Hprev).
    exists (a :: w1), p. repeat split; auto.
    intros w0 b E. destruct w0 as [|x w0].
    + inversion E; subst. exact Hstop.
    + inversion E; subst. eapply Hprev; eauto.
Qed.

Lemma snoc_unblank (w : str) :
  (forall w0 a, w = w0 ++ [a] -> space a = false) ->
  starts_blank (rev w) = false.
Proof.
  intros H. destruct (rev w) as [|a t] eqn:E; [reflexivity|].
  simpl. apply (H (rev t) a).
  rewrite <- (rev_involutive w), E. reflexivity.
Qed.

(** Leaving an optional item: the continuation inside [r?] is the one
    outside, once the item has consumed something. *)
Lemma opt_run r k s c res :
  m (opt r) k s c = Some res ->
  k s c = Some res \/
  exists k1 : K,
    m r k1 s c = Some res /\
    (forall s' c' x, k1 s' c' = Some x -> k s' c' = Some x) /\
    (caps_blind k -> caps_blind k1).
Proof.
  unfold opt. cbn [m rep_loop]. intros H. apply or_else_some in H.
  destruct H as [H|[_ H]]; [right|now left].
  cbn [hi_open] in H.
  match type of H with m r ?k1 s c = _ => exists k1 end.
  split; [exact H|]. cbv beta.
  assert (Hin : forall s' c',
    rep_loop (m r) Greedy k (List.length s) (pred 0) (dec_hi (Some 1)) s' c'
    = match List.length s with 0 => None | S _ => k s' c' end).
  { intros s' c'. destruct (List.length s); reflexivity. }
  split.
  - intros s' c' x. rewrite Hin.
    destruct (List.length s' <? List.length s); [|discriminate].
    destruct (List.length s); [discriminate|auto].
  - intros Hk s' c' c''. rewrite !Hin.
    destruct (List.length s' <? List.length s); [|auto].
    destruct (List.length s); [auto|apply Hk].
Qed.

Lemma firstn_before (w0 r : str) (a : ascii) :
  firstn (List.length ((w0 ++ [a]) ++ r) - List.length (a :: r))
    ((w0 ++ [a]) ++ r) = w0.
Proof.
  rewrite <- app_assoc. change ([a] ++ r) with (a :: r).
  apply firstn_consumed.
Qed.

Lemma free_text_item n t lk (k : K) :
  names t = [] -> names lk = [] ->
  caps_blind k -> keeps_good n k ->
  keeps_good n
    (m (opt (Seq t (Seq (Group n (star_lazy (Chr any)))
                 (Seq (star (Chr space)) (Seq lk Eps))))) k).
Proof.
  intros Et El Hblind Hk s c res Hc H.
  apply opt_run in H. destruct H as [H|(k1 & H & Hk1 & Hb1)].
  { eapply Hk; eauto. }
  specialize (Hb1 Hblind).
  (* the tag *)
  cbn [m] in H. apply m_sound in H. destruct H as (s1 & c1 & Ht & H).
  assert (Hc1 : good n c1).
  { intros v Hv. apply Hc. now rewrite <- (matches_groupless Ht Et). }
  (* the lazy run *)
  unfold star_lazy in H. cbn [m] in H.
  apply lazy_any_first in H. destruct H as (w & p & -> & Hp & Hprev).
  rewrite firstn_consumed in Hp.
  (* what follows the value: white space, the lookahead, the rest *)
  set (k3 := m lk (m Eps k1)) in *.
  assert (Hk3 : caps_blind k3) by (unfold k3; auto using caps_blind_m).
  apply m_sound in Hp. destruct Hp as (q & cq & Hws & Hq).
  apply rep_chr_inv in Hws. destruct Hws as (ws & -> & Hws & _ & _ & ->).
  (* the value does not end in white space *)
  assert (Hw : starts_blank (rev w) = false).
  { apply snoc_unblank. intros w0 a ->.
    destruct (space a) eqn:Ea; [exfalso|reflexivity].
    specialize (Hprev w0 a eq_refl). revert Hprev.
    assert (Hm : matches (star (Chr space)) (a :: ws ++ q)
                   (bind n w0 c1) q (bind n w0 c1)).
    { apply (rep_chr_intro Greedy space (a :: ws)); simpl.
      - now rewrite Ea.
      - lia.
      - discriminate. }
    rewrite firstn_before.
    apply (m_complete Hm); [|reflexivity|simpl; lia].
    intros c'. apply (Hk3 q (bind n (w0 ++ [a]) c1)).
    unfold k3. change (m Eps k1) with (fun s c => k1 s c). congruence. }
  (* and the rest keeps it *)
  unfold k3 in Hq. apply m_sound in Hq. destruct Hq as (q' & c' & Hl & Hq).
  cbn [m] in Hq. apply Hk1 in Hq. apply (Hk q' c'); [|exact Hq].
  intros v Hv. rewrite (matches_groupless Hl El) in Hv.
  rewrite group_bind, String.eqb_refl in Hv. inversion Hv; subst v.
  exact Hw.
Qed.

Lemma keeps_good_seq n a b k :
  keeps_good n (m a (m b k)) -> keeps_good n (m (Seq a b) k).
Proof. exact (fun H => H). Qed.

Lemma keeps_good_final n : keeps_good n (fun _ c => Some c).
Proof. intros s c res Hc H. inversion H; subst. exact Hc. Qed.

Lemma caps_blind_final : caps_blind (fun _ c => Some c).
Proof. intros s c c' _. discriminate. Qed.

Ltac not_in_names :=
  solve [let H := fresh in intros H; vm_compute in H; intuition discriminate].

Ltac good_step :=
  first
    [ apply keeps_good_final
    | apply keeps_good_other; [not_in_names|]
    | apply keeps_good_seq;
      first
        [ apply keeps_good_other; [not_in_names|]
        | apply free_text_item;
          [reflexivity|reflexivity
          |repeat apply caps_blind_m; apply caps_blind_final|] ] ].

Lemma text_free_text_good n :
  In n FREE_TEXT -> keeps_good n (m Text.REGEX (fun _ c => Some c)).
Proof.
  intros Hn. unfold Text.REGEX, Text.ITEMS, Text.item, Text.free_text.
  cbn [seqs app]. simpl in Hn.
  repeat (destruct Hn as [<-|Hn]; [repeat good_step|]). contradiction.
Qed.

(** X13: the white space behind a free-text value is never part of it.  On
    every body, the value of a free-text field (ordering customer, ordering
    institution, receiver's correspondent, intermediary, account with
    institution, beneficiary, remittance information, details of charges,
    sender to receiver information, regulatory reporting), when set, does
    not end with a white-space character: the lazy [.*?] stops before the
    run the following [\s*] takes. *)
Theorem X13_free_text_ends_unblank (raw : str) (n : string) (v : str) :
  In n FREE_TEXT ->
  Text.getattr (Text.__init__ raw) n = Some v ->
  starts_blank (rev v) = false.
Proof.
  intros Hn Hg.
  destruct (truthy raw) eqn:Ht;
    [destruct (re_match Text.REGEX raw) as [mo|] eqn:Hm|];
    try (destruct (@text_unmatched raw) as (_ & _ & _ & E);
         [now auto|rewrite E in Hg; discriminate Hg]).
  destruct (text_matched _ Ht Hm) as (_ & _ & _ & Hgr).
  rewrite Hgr in Hg.
  - apply (@text_free_text_good n Hn raw [] mo); auto.
    intros x Hx. discriminate Hx.
  - simpl in Hn. simpl. tauto.
Qed.

Lemma X13_free_text_ends_unblank_witness :
  Text.beneficiary (Text.__init__ (L ":59:NAME   :70:REASON  "))
  = Some (L "NAME") /\
  starts_blank (rev (L "NAME")) = false.
Proof.
  assert (Hv : Text.getattr (Text.__init__ (L ":59:NAME   :70:REASON  "))
                 "beneficiary" = Some (L "NAME"))
    by (vm_compute; reflexivity).
  split; [exact Hv|].
  apply (@X13_free_text_ends_unblank (L ":59:NAME   :70:REASON  ")
           "beneficiary" (L "NAME")); [|exact Hv].
  vm_compute. tauto.
Defined.


(** ** The body of block 4 is trimmed *)

Lemma keeps_other P n r k :
  ~ In n (names r) -> keeps P n k -> keeps P n (m r k).
Proof.
  intros Hn Hk s c res Hc H.
  apply m_sound in H. destruct H as (s1 & c1 & Hm & H).
  apply (Hk s1 c1); [|exact H].
  intros v Hv. apply Hc. now rewrite <- (matches_other Hm _ Hn).
Qed.

Lemma keeps_seq P n a b k :
  keeps P n (m a (m b k)) -> keeps P n (m (Seq a b) k).
Proof. exact (fun H => H). Qed.

Lemma keeps_final P n : keeps P n (fun _ c => Some c).
Proof. intros s c res Hc H. inversion H; subst. exact Hc. Qed.

Lemma or_else_none a b : or_else a b = None -> a = None /\ b tt = None.
Proof. destruct a; simpl; intros H; [discriminate|auto]. Qed.

(** A greedy run of one class stops at the last place where the rest
    succeeds: one character further, if the class allows it, the rest had
    failed. *)
Lemma greedy_run_last p (kg : K) : forall fuel s c res,
  List.length s < fuel ->
  rep_loop (m (Chr p)) Greedy kg fuel 0 None s c = Some res ->
  exists w q, s = w ++ q /\ forallb p w = true /\ kg q c = Some res /\
    forall b q', q = b :: q' -> p b = true -> kg q' c = None.
Proof.
  induction fuel as [|fuel IH]; intros s c res Hf H; [lia|].
  cbn [rep_loop] in H. apply or_else_some in H.
  destruct H as [H|[Hmore H]].
  - cbn [hi_open m] in H. destruct s as [|a s1]; [discriminate|].
    destruct (p a) eqn:Ea; [|discriminate].
    assert (Hl : (List.length s1 <? List.length (a :: s1)) = true)
      by (apply Nat.ltb_lt; simpl; lia).
    rewrite Hl in H. cbn [pred dec_hi option_map] in H.
    apply IH in H; [|simpl in Hf; lia].
    destruct H as (w & q & -> & Hw & Hq & Hlast).
    exists (a :: w), q. simpl. rewrite Ea, Hw. repeat split; auto.
  - exists [], s. split; [reflexivity|]. split; [reflexivity|].
    split; [exact H|]. intros b q' -> Hb.
    cbn [hi_open m] in Hmore. rewrite Hb in Hmore.
    assert (Hl : (List.length q' <? List.length (b :: q')) = true)
      by (apply Nat.ltb_lt; simpl; lia).
    rewrite Hl in Hmore. cbn [pred dec_hi option_map] in Hmore.
    destruct fuel as [|fuel']; [simpl in Hf; lia|].
    cbn [rep_loop] in Hmore. apply or_else_none in Hmore.
    exact (proj2 Hmore).
Qed.

Lemma body_item n t e (k : K) :
  names t = [] -> names e = [] ->
  caps_blind k -> keeps body_ok n k ->
  keeps body_ok n
    (m (opt (Seq t (Seq (star (Chr space))
                 (Seq (Group n (plus_lazy (Chr any)))
                    (Seq (star (Chr space)) (Seq e Eps)))))) k).
Proof.
  intros Et Ee Hblind Hk s c res Hc H.
  apply opt_run in H. destruct H as [H|(k1 & H & Hk1 & Hb1)].
  { eapply Hk; eauto. }
  specialize (Hb1 Hblind).
  set (R3 := Seq (star (Chr space)) (Seq e Eps)) in *.
  set (G := Group n (plus_lazy (Chr any))) in *.
  assert (E3 : names R3 = []) by (simpl; rewrite Ee; reflexivity).
  assert (Hb3 : caps_blind (m R3 k1)) by auto using caps_blind_m.
  (* the tag *)
  change (m t (m (star (Chr space)) (m G (m R3 k1))) s c = Some res) in H.
  apply m_sound in H. destruct H as (s1 & c1 & Ht & H).
  assert (Hc1 : held body_ok n c1).
  { intros v Hv. apply Hc. now rewrite <- (matches_groupless Ht Et). }
  (* the greedy run of white space before the body *)
  change (rep_loop (m (Chr space)) Greedy (m G (m R3 k1))
            (S (List.length s1)) 0 None s1 c1 = Some res) in H.
  apply greedy_run_last in H; [|lia].
  destruct H as (ws & q & -> & Hws & Hq & Hlast).
  (* the lazy run of the body: one character, then as few as possible *)
  set (kg := fun (s' : str) (c' : caps) =>
               m R3 k1 s' (bind n (firstn (List.length q - List.length s') q) c'))
    in *.
  change (rep_loop (m (Chr any)) Lazy kg (S (List.length q)) 1 None q c1
          = Some res) in Hq.
  cbn [rep_loop] in Hq. apply or_else_some in Hq.
  destruct Hq as [Hq|[_ Hq]]; [discriminate Hq|].
  cbn [hi_open m] in Hq. destruct q as [|a0 q1]; [discriminate|].
  cbn [any] in Hq.
  assert (Hl : (List.length q1 <? List.length (a0 :: q1)) = true)
    by (apply Nat.ltb_lt; simpl; lia).
  rewrite Hl in Hq. cbn [pred dec_hi option_map] in Hq.
  apply lazy_any_first in Hq. destruct Hq as (w & p & -> & Hp & Hprev).
  unfold kg in Hp, Hprev.
  change (a0 :: w ++ p) with ((a0 :: w) ++ p) in Hp.
  rewrite firstn_consumed in Hp.
  set (k3 := m (Seq e Eps) k1) in *.
  assert (Hk3 : caps_blind k3) by (unfold k3; auto using caps_blind_m).
  change (m (star (Chr space)) k3 p (bind n (a0 :: w) c1) = Some res) in Hp.
  pose proof Hp as Hrest.
  apply m_sound in Hp. destruct Hp as (q3 & c3 & Hs & Hq3).
  apply rep_chr_inv in Hs. destruct Hs as (ws2 & -> & Hws2 & _ & _ & ->).
  (* the body does not end in white space, unless it is one character *)
  assert (Hend : forall w0 a, w = w0 ++ [a] -> space a = false).
  { intros w0 a ->.
    destruct (space a) eqn:Ea; [exfalso|reflexivity].
    specialize (Hprev w0 a eq_refl). revert Hprev.
    set (cb := bind n _ c1).
    assert (Hm : matches (star (Chr space)) (a :: ws2 ++ q3) cb q3 cb).
    { apply (rep_chr_intro Greedy space (a :: ws2)); simpl.
      - now rewrite Ea.
      - lia.
      - discriminate. }
    apply (fun H => proj1 (m_complete Hm k3 cb H)).
    intros c'. apply (Hk3 q3 (bind n (a0 :: w0 ++ [a]) c1)). congruence. }
  (* nor does it begin with white space, unless it is one character *)
  assert (Hbegin : space a0 = true -> w = []).
  { intros Ea. destruct w as [|a1 w1]; [reflexivity|exfalso].
    specialize (Hlast a0 _ eq_refl Ea). revert Hlast.
    assert (Hm : matches G ((a1 :: w1) ++ ws2 ++ q3) c1 (ws2 ++ q3)
                   (bind n (a1 :: w1) c1)).
    { rewrite <- (firstn_consumed (a1 :: w1) (ws2 ++ q3)) at 2.
      apply M_group.
      apply (rep_chr_intro Lazy any (a1 :: w1)); simpl.
      - clear. induction w1; simpl; auto.
      - lia.
      - discriminate. }
    apply (fun H => proj1 (m_complete Hm (m R3 k1) c1 H)).
    intros c'. apply (Hb3 (ws2 ++ q3) (bind n (a0 :: a1 :: w1) c1)).
    change (m R3 k1) with (m (star (Chr space)) k3). congruence. }
  assert (Hv : body_ok (a0 :: w)).
  { destruct w as [|a1 w1].
    - destruct (space a0) eqn:Ea.
      + right. exists a0. auto.
      + left. split; simpl; exact Ea.
    - left. split.
      + simpl. destruct (space a0) eqn:Ea; [|reflexivity].
        discriminate (Hbegin eq_refl).
      + apply snoc_unblank. intros w0 a E.
        destruct w0 as [|x w0]; [discriminate E|].
        inversion E; subst. eapply Hend; eauto. }
  (* and the rest keeps it *)
  unfold k3 in Hq3. apply m_sound in Hq3.
  destruct Hq3 as (q' & c' & Hl' & Hq').
  apply Hk1 in Hq'. apply (Hk q' c'); [|exact Hq'].
  intros v Hg.
  rewrite (matches_groupless Hl') in Hg by (simpl; rewrite Ee; reflexivity).
  rewrite group_bind, String.eqb_refl in Hg. inversion Hg; subst v.
  exact Hv.
Qed.

Lemma message_body_ok :
  keeps body_ok "text" (m MT10x.MESSAGE_REGEX (fun _ c => Some c)).
Proof.
  unfold MT10x.MESSAGE_REGEX. cbn [seqs].
  do 3 (apply keeps_seq; apply keeps_other; [not_in_names|]).
  apply keeps_seq. apply body_item; [reflexivity|reflexivity| |].
  - repeat apply caps_blind_m. apply caps_blind_final.
  - apply keeps_other; [not_in_names|]. apply keeps_final.
Qed.

(** X14: the body a message hands to its text block carries none of the
    white space that surrounds it inside block 4: the text block of a
    parsed message is built from a text that neither begins nor ends with
    white space (the empty text when block 4 is absent), the one exception
    being a body that is a single white-space character. *)
Theorem X14_message_body_is_trimmed (message : option str) (t : Text.t) :
  MT10x.text (MT10x.__init__ message) = Some t ->
  trimmed (Text.raw t) \/
  exists a, Text.raw t = [a] /\ space a = true.
Proof.
  intros Ht.
  destruct (message_cases message) as [[E _]|(mo & _ & Hm & E)];
    rewrite E in Ht; cbn [MT10x.text] in Ht; [discriminate Ht|].
  inversion Ht; subst t. rewrite text_keeps_raw.
  assert (Hh : held body_ok "text" mo).
  { eapply message_body_ok; [|exact Hm]. intros x Hx. discriminate Hx. }
  destruct (group mo "text") as [v|] eqn:Ev.
  - rewrite or_empty_some. exact (Hh v Ev).
  - left; split; reflexivity.
Qed.

Lemma X14_message_body_is_trimmed_witness :
  MT10x.text (MT10x.__init__ (Some (L "{4:  :20:REF1 :23B:CRED  -}")))
  = Some (Text.__init__ (L ":20:REF1 :23B:CRED")) /\
  (trimmed (Text.raw (Text.__init__ (L ":20:REF1 :23B:CRED"))) \/
   exists a, Text.raw (Text.__init__ (L ":20:REF1 :23B:CRED")) = [a] /\
             space a = true).
Proof.
  assert (H : MT10x.text
                (MT10x.__init__ (Some (L "{4:  :20:REF1 :23B:CRED  -}")))
              = Some (Text.__init__ (L ":20:REF1 :23B:CRED")))
    by (vm_compute; reflexivity).
  split; [exact H|].
  exact (@X14_message_body_is_trimmed _ _ H).
Defined.

(** * The user header against its grammar *)

Lemma until_close_app (w R : str) :
  forallb no_close w = true -> until_close (w ++ L "}" ++ R) = Some (w, R).
Proof.
  induction w as [|a w IH]; simpl; intros H; [reflexivity|].
  apply andb_true_iff in H. destruct H as [Ha Hw].
  unfold no_close, nott, is_char in Ha. rewrite Ascii.eqb_sym in Ha.
  apply negb_true_iff in Ha. rewrite Ha. simpl in IH. now rewrite IH.
Qed.

Lemma until_close_inv : forall s v r,
  until_close s = Some (v, r) -> s = v ++ L "}" ++ r.
Proof.
  induction s as [|a s IH]; simpl; intros v r H; [discriminate|].
  destruct (Ascii.eqb a "}") eqn:E.
  - apply Ascii.eqb_eq in E. inversion H; subst. reflexivity.
  - destruct (until_close s) as [[v' r']|]; [|discriminate].
    inversion H; subst. simpl. f_equal. now apply IH.
Qed.

(** What [skip_group] leaves is what stood behind a well-formed group. *)
Lemma skip_group_spec tg ok (s : str) :
  exists f, opt_ok ok f = true /\ s = group_text tg f ++ skip_group tg ok s.
Proof.
  unfold skip_group.
  destruct (strip_prefix (L tg) s) as [r|] eqn:Ep; [|now exists None].
  destruct (until_close r) as [[v rest]|] eqn:Eu; [|now exists None].
  destruct (ok v) eqn:Ev; [|now exists None].
  exists (Some v). split; [exact Ev|].
  apply strip_prefix_inv in Ep. apply until_close_inv in Eu. subst.
  simpl. now rewrite <- !app_assoc.
Qed.

Lemma skip_group_render tg ok (f : option str) (R : str) :
  opt_ok ok f = true -> opt_ok (forallb no_close) f = true ->
  strip_prefix (L tg) R = None ->
  skip_group tg ok (group_text tg f ++ R) = R.
Proof.
  intros Hok Hn HR. unfold skip_group. destruct f as [w|]; simpl in *.
  - rewrite <- !app_assoc, strip_prefix_app, until_close_app by assumption.
    now rewrite Hok.
  - now rewrite HR.
Qed.

(** The recogniser accepts exactly the texts of four well-formed optional
    groups in order. *)
Lemma user_header_grammar_iff (s : str) :
  user_header_grammar s = true <->
  exists bpc mur sti uetr,
    opt_ok bpc_ok bpc = true /\ opt_ok mur_ok mur = true /\
    opt_ok sti_ok sti = true /\ opt_ok uetr_shape uetr = true /\
    s = render_user_header bpc mur sti uetr.
Proof.
  unfold user_header_grammar. split.
  - intros H.
    destruct (skip_group_spec "{113:" bpc_ok s) as (b & Hb & E1).
    destruct (skip_group_spec "{108:" mur_ok (skip_group "{113:" bpc_ok s))
      as (m0 & Hm & E2).
    destruct (skip_group_spec "{111:" sti_ok
                (skip_group "{108:" mur_ok (skip_group "{113:" bpc_ok s)))
      as (s0 & Hs & E3).
    destruct (skip_group_spec "{121:" uetr_shape
                (skip_group "{111:" sti_ok
                   (skip_group "{108:" mur_ok (skip_group "{113:" bpc_ok s))))
      as (u & Hu & E4).
    exists b, m0, s0, u. repeat (split; [assumption|]).
    unfold render_user_header. rewrite E1 at 1. f_equal.
    rewrite E2 at 1. f_equal. rewrite E3 at 1. f_equal.
    rewrite E4 at 1.
    destruct (skip_group "{121:" uetr_shape _); [|discriminate H].
    apply app_nil_r.
  - intros (b & m0 & s0 & u & Hb & Hm & Hs & Hu & ->).
    destruct (ok_no_close _ _ _ _ Hb Hm Hs Hu) as (Nb & Nm & Ns & Nu).
    unfold render_user_header.
    rewrite skip_group_render by (auto; destruct m0, s0, u; reflexivity).
    rewrite skip_group_render by (auto; destruct s0, u; reflexivity).
    rewrite skip_group_render by (auto; destruct u; reflexivity).
    rewrite <- (app_nil_r (group_text "{121:" u)).
    now rewrite skip_group_render.
Qed.

(** The text of the groups is empty or ends with the closing brace. *)
Lemma render_last bpc mur sti uetr :
  render_user_header bpc mur sti uetr = [] \/
  exists w, render_user_header bpc mur sti uetr = w ++ L "}".
Proof.
  unfold render_user_header.
  destruct uetr as [u|]; [right|].
  { exists (group_text "{113:" bpc ++ group_text "{108:" mur
            ++ group_text "{111:" sti ++ L "{121:" ++ u).
    unfold group_text at 4. now rewrite <- !app_assoc. }
  destruct sti as [x|]; [right|].
  { exists (group_text "{113:" bpc ++ group_text "{108:" mur
            ++ L "{111:" ++ x).
    unfold group_text at 3 4. now rewrite app_nil_r, <- !app_assoc. }
  destruct mur as [y|]; [right|].
  { exists (group_text "{113:" bpc ++ L "{108:" ++ y).
    unfold group_text at 2 3 4. now rewrite !app_nil_r, <- !app_assoc. }
  destruct bpc as [z|]; [right|now left].
  exists (L "{113:" ++ z). unfold group_text.
  now rewrite !app_nil_r, <- !app_assoc.
Qed.

Lemma chomp_newline (w : str) : chomp (w ++ nl) = w.
Proof.
  unfold chomp, nl. rewrite rev_app_distr. simpl. apply rev_involutive.
Qed.

Lemma chomp_close (w : str) : chomp (w ++ L "}") = w ++ L "}".
Proof. unfold chomp. rewrite rev_app_distr. reflexivity. Qed.

Lemma chomp_cases (s : str) : chomp s = s \/ s = chomp s ++ nl.
Proof.
  unfold chomp. destruct (rev s) as [|a r] eqn:E; [now left|].
  destruct (Ascii.eqb a "010") eqn:Ea; [right|now left].
  apply Ascii.eqb_eq in Ea. subst a.
  rewrite <- (rev_involutive s), E. reflexivity.
Qed.

Lemma chomp_render bpc mur sti uetr tail :
  at_end tail = true ->
  chomp (render_user_header bpc mur sti uetr ++ tail)
  = render_user_header bpc mur sti uetr.
Proof.
  intros Ht. apply at_end_inv in Ht. destruct Ht as [-> | ->].
  - rewrite app_nil_r.
    destruct (render_last bpc mur sti uetr) as [->|(w & ->)];
      [reflexivity|apply chomp_close].
  - apply chomp_newline.
Qed.

(** A nonempty payload is valid exactly when, one final newline apart, it
    is in the grammar. *)
Lemma user_header_valid_iff (raw : str) :
  raw <> [] ->
  (UserHeader._boolean (UserHeader.__init__ raw) = true <->
   user_header_grammar (chomp raw) = true).
Proof.
  intros Hne. split.
  - intros Hv. apply user_header_valid in Hv. destruct Hv as (mo & Hm & _).
    apply re_match_sound in Hm. destruct Hm as (s' & Hm).
    apply user_header_inv in Hm.
    destruct Hm as (He & -> & Hb & Hmu & Hs & Hu).
    rewrite chomp_render by assumption.
    apply user_header_grammar_iff. eauto 10.
  - intros Hg. apply user_header_grammar_iff in Hg.
    destruct Hg as (b & m0 & s0 & u & Hb & Hm & Hs & Hu & E).
    assert (Hx : exists tail, at_end tail = true /\
                   raw = render_user_header b m0 s0 u ++ tail).
    { destruct (chomp_cases raw) as [Ec|Ec].
      - exists []. rewrite app_nil_r. split; [reflexivity|congruence].
      - exists nl. split; [reflexivity|]. now rewrite <- E. }
    destruct Hx as (tail & Ht & ->).
    destruct (@user_header_intro b m0 s0 u tail Hb Hm Hs Hu Ht) as (mo & H).
    apply re_match_complete in H.
    destruct (user_header_cases (render_user_header b m0 s0 u ++ tail))
      as [[_ [E'|E']]|(mo' & _ & _ & E')]; [congruence|congruence|].
    now rewrite E'.
Qed.

(** C7, as stated, fails: the payload [{113:SEPA}] followed by a newline is
    not made of the four groups, yet it is valid and its bank priority code
    is set: [$] matches before a final newline. *)
Lemma C7_counterexample :
  L "{113:SEPA}" ++ nl <> [] /\
  user_header_grammar (L "{113:SEPA}" ++ nl) = false /\
  UserHeader._boolean (UserHeader.__init__ (L "{113:SEPA}" ++ nl)) = true /\
  UserHeader.bank_priority_code (UserHeader.__init__ (L "{113:SEPA}" ++ nl))
  = Some (L "SEPA").
Proof. split; [discriminate|]. vm_compute. repeat split. Qed.

(** C7, amended: a nonempty user-header payload is valid exactly when, one
    final newline apart, it is made of the four optional groups in their
    order, each value of its class; every other nonempty payload (a group
    out of order, a value outside its class, anything before, between or
    behind the groups) is reported invalid and leaves all four fields
    unset. *)
Theorem C7_outside_grammar_all_unset (raw : str) :
  raw <> [] ->
  let u := UserHeader.__init__ raw in
  (UserHeader._boolean u = true <-> user_header_grammar (chomp raw) = true) /\
  (user_header_grammar (chomp raw) = false ->
   UserHeader._boolean u = false /\
   UserHeader.bank_priority_code u = None /\
   UserHeader.message_user_reference u = None /\
   UserHeader.service_type_identifier u = None /\
   UserHeader.unique_end_to_end_transaction_reference u = None).
Proof.
  intros Hne. cbv zeta. split; [now apply user_header_valid_iff|].
  intros Hg.
  destruct (user_header_cases raw) as [[E _]|(mo & _ & _ & E)].
  - rewrite E. repeat split.
  - assert (Hv : UserHeader._boolean (UserHeader.__init__ raw) = true)
      by now rewrite E.
    apply (user_header_valid_iff Hne) in Hv. congruence.
Qed.

Lemma C7_outside_grammar_all_unset_witness :
  let u := UserHeader.__init__ (L "{108:A}{113:ABCD}") in
  UserHeader._boolean u = false /\
  UserHeader.bank_priority_code u = None /\
  UserHeader.message_user_reference u = None /\
  UserHeader.service_type_identifier u = None /\
  UserHeader.unique_end_to_end_transaction_reference u = None.
Proof.
  assert (Hne : L "{108:A}{113:ABCD}" <> []) by discriminate.
  apply (proj2 (@C7_outside_grammar_all_unset (L "{108:A}{113:ABCD}") Hne)).
  vm_compute. reflexivity.
Defined.

(** ** The transaction reference *)

Lemma render_ref_inj b m s u b' m' s' u' tail :
  opt_ok bpc_ok b = true -> opt_ok mur_ok m = true ->
  opt_ok sti_ok s = true ->
  opt_ok bpc_ok b' = true -> opt_ok mur_ok m' = true ->
  opt_ok sti_ok s' = true -> opt_ok uetr_shape u' = true ->
  at_end tail = true ->
  render_user_header b m s (Some u) = render_user_header b' m' s' u' ++ tail ->
  u' = Some u.
Proof.
  intros Hb Hm Hs Hb' Hm' Hs' Hu' Ht E.
  destruct (@ok_no_close b m s None Hb Hm Hs eq_refl) as (Nb & Nm & Ns & _).
  destruct (ok_no_close _ _ _ _ Hb' Hm' Hs' Hu') as (Nb' & Nm' & Ns' & Nu').
  apply at_end_inv in Ht.
  unfold render_user_header in E. rewrite <- !app_assoc in E.
  apply group_text_inj in E; auto;
    [|destruct m, s; reflexivity
     |destruct m', s', u', Ht as [-> | ->]; reflexivity].
  destruct E as [_ E].
  apply group_text_inj in E; auto;
    [|destruct s; reflexivity
     |destruct s', u', Ht as [-> | ->]; reflexivity].
  destruct E as [_ E].
  apply group_text_inj in E; auto;
    [|solve [reflexivity|destruct u', Ht as [-> | ->]; reflexivity]..].
  destruct E as [_ E].
  destruct u' as [w|]; simpl in E.
  - destruct Ht as [-> | ->].
    + rewrite app_nil_r in E. inversion E as [E1].
      apply app_inj_tail in E1. destruct E1 as [-> _]. reflexivity.
    + inversion E as [E1].
      apply app_inj_tail in E1.
      destruct E1 as [_ E1]. discriminate E1.
  - destruct Ht as [-> | ->]; discriminate E.
Qed.

(** C5, amended: in a user header whose other groups, those present, are
    well formed, the transaction reference [u] is accepted exactly when it
    has five groups of 8, 4, 4, 4 and 12 ASCII letters or digits
    (hexadecimal or not, either case) separated by hyphens, with [4] leading
    the third group and one of the lower-case [8 9 a b] leading the fourth;
    the header then holds [u] and the other values.  Any other [u] makes
    the header invalid, with all four fields unset. *)
Theorem C5_uetr_accepted_iff_shape (bpc mur sti : option str) (u : str) :
  opt_ok bpc_ok bpc = true -> opt_ok mur_ok mur = true ->
  opt_ok sti_ok sti = true ->
  let raw := render_user_header bpc mur sti (Some u) in
  (UserHeader._boolean (UserHeader.__init__ raw) = true <->
   uetr_shape u = true) /\
  (uetr_shape u = true ->
   UserHeader.__init__ raw = UserHeader.mk raw bpc mur sti (Some u) true) /\
  (uetr_shape u = false ->
   UserHeader.__init__ raw = UserHeader.mk raw None None None None false).
Proof.
  intros Hb Hm Hs raw.
  assert (Hne : raw <> [])
    by (unfold raw, render_user_header; destruct bpc, mur, sti; discriminate).
  assert (Hyes : uetr_shape u = true ->
            UserHeader.__init__ raw = UserHeader.mk raw bpc mur sti (Some u) true).
  { intros Hu. now apply user_header_of_fields. }
  assert (Hno : uetr_shape u = false ->
            UserHeader.__init__ raw = UserHeader.mk raw None None None None false).
  { intros Hu.
    destruct (user_header_cases raw) as [[E _]|(mo & _ & Hmo & _)];
      [exact E|exfalso].
    apply re_match_sound in Hmo. destruct Hmo as (s' & Hmo).
    apply user_header_inv in Hmo.
    destruct Hmo as (He & Er & Hb' & Hm' & Hs' & Hu').
    unfold raw in Er.
    rewrite (render_ref_inj _ _ _ _ _ _ _ _ _ Hb Hm Hs Hb' Hm' Hs' Hu' He Er)
      in Hu'.
    simpl in Hu'. congruence. }
  split; [split|split; assumption].
  - intros Hv. destruct (uetr_shape u) eqn:Hu; [reflexivity|].
    rewrite (Hno eq_refl) in Hv. discriminate Hv.
  - intros Hu. now rewrite (Hyes Hu).
Qed.

Lemma C5_uetr_accepted_iff_shape_witness :
  UserHeader.__init__
    (L "{113:SEPA}{111:001}{121:d2d62e74-4f7d-45dc-a230-85fa259e1694}")
  = UserHeader.mk
      (L "{113:SEPA}{111:001}{121:d2d62e74-4f7d-45dc-a230-85fa259e1694}")
      (Some (L "SEPA")) None (Some (L "001"))
      (Some (L "d2d62e74-4f7d-45dc-a230-85fa259e1694")) true.
Proof.
  apply (proj1 (proj2 (@C5_uetr_accepted_iff_shape
                         (Some (L "SEPA")) None (Some (L "001"))
                         (L "d2d62e74-4f7d-45dc-a230-85fa259e1694")
                         eq_refl eq_refl eq_refl))).
  vm_compute. reflexivity.
Defined.

(** * The body against its tag sequence *)












(** * A valid body is its segments *)






(** ** Values and gaps *)








(** ** One segment *)


(** ** The segments of one entry *)




(** ** The chain of the entries *)



(** ** The time indication *)









(** ** The whole pattern *)









(** ** Outside the tag sequence *)



(** ** The fields of a valid body *)


